(** * The offline-caching service worker (src/service-worker.js)

    A shallow embedding of the worker's event handlers.  The platform
    objects the script talks to (CacheStorage, fetch, Clients, the
    notification registration) are modelled by an explicit world state
    and an environment that decides which network and storage operations
    fail; promise chains and [async]/[await] become a state-and-error
    monad; calls whose promise nobody awaits become detached tasks that a
    scheduler runs after the handler has produced its result. *)

From stdpp Require Import gmap strings list.
From Stdlib Require Import ZArith String Ascii.

Local Open Scope string_scope.
Local Open Scope Z_scope.
Local Open Scope list_scope.
Local Set Warnings "-register-all,-clear-no-such-hyp".

(** ** JavaScript values and strings *)

(** The values that reach the script through [event.data] and
    [event.data.json()].  Numbers are integers here: the script only ever
    tests them for truthiness. *)
Inductive value : Type :=
  | VUndefined
  | VNull
  | VBool (b : bool)
  | VNum (n : Z)
  | VStr (s : string)
  | VArr (items : list value)
  | VObj (fields : list (string * value)).

(** [ToBoolean]. *)
Definition truthy (v : value) : bool :=
  match v with
  | VUndefined | VNull => false
  | VBool b => b
  | VNum n => negb (n =? 0)
  | VStr s => negb (String.eqb s "")
  | VArr _ | VObj _ => true
  end.

(** [a || b] and [a && b] on values. *)
Definition js_or (a b : value) : value := if truthy a then a else b.
Definition js_and (a b : value) : value := if truthy a then b else a.

Fixpoint assoc_lookup (k : string) (fields : list (string * value)) : value :=
  match fields with
  | [] => VUndefined
  | (k', v) :: rest => if String.eqb k k' then v else assoc_lookup k rest
  end.

(** [v.k] for the property names the script reads ([type], [title],
    [body], [url]): [None] is the TypeError of reading a property of
    [undefined] or [null]; primitives and arrays have no such property. *)
Definition get_prop (v : value) (k : string) : option value :=
  match v with
  | VUndefined | VNull => None
  | VObj fields => Some (assoc_lookup k fields)
  | _ => Some VUndefined
  end.

(** [v === 'lit'] *)
Definition strict_eq_str (v : value) (lit : string) : bool :=
  match v with
  | VStr s => String.eqb s lit
  | _ => false
  end.

(** [s.startsWith(p)] *)
Fixpoint startsWith (s p : string) {struct p} : bool :=
  match p with
  | EmptyString => true
  | String a p' =>
      match s with
      | EmptyString => false
      | String b s' => Ascii.eqb a b && startsWith s' p'
      end
  end.

(** [s.includes(p)] *)
Fixpoint includes (s p : string) : bool :=
  startsWith s p ||
  match s with
  | EmptyString => false
  | String _ s' => includes s' p
  end.

(** The part of a string before the first character that [stop] accepts,
    and the part from that character on. *)
Fixpoint take_until (stop : ascii → bool) (s : string) : string :=
  match s with
  | EmptyString => EmptyString
  | String c s' => if stop c then EmptyString else String c (take_until stop s')
  end.

Fixpoint drop_until (stop : ascii → bool) (s : string) : string :=
  match s with
  | EmptyString => EmptyString
  | String c s' => if stop c then s else drop_until stop s'
  end.

Definition is_char (c : ascii) : ascii → bool := Ascii.eqb c.

(** A URL without its fragment: what is left of the first "#".  The
    platform compares and stores the URLs of cached requests without
    their fragments. *)
Definition cache_key (u : string) : string := take_until (is_char "#") u.
Arguments cache_key : simpl never.

(** ** Requests, responses, errors *)

Record Request : Type := mkRequest {
  method : string;
  url : string;
  mode : string
}.

Record Response : Type := mkResponse {
  body : string;
  status : Z;
  statusText : string
}.

Inductive error : Type :=
  | NetworkError
  | StorageError
  | TypeError
  | SyntaxError.

Inductive settled (A : Type) : Type :=
  | Fulfilled (a : A)
  | Rejected (e : error).
Arguments Fulfilled {A} a.
Arguments Rejected {A} e.

(** ** Constants of the script *)

Definition CACHE_NAME : string := "solo-leveling-v1.0.0".

Definition ASSETS_TO_CACHE : list string :=
  [ "/";
    "/index.html";
    "/manifest.json";
    "https://fonts.googleapis.com/css2?family=Inter:wght@400;500;600;700&display=swap";
    "https://cdnjs.cloudflare.com/ajax/libs/jspdf/2.5.1/jspdf.umd.min.js" ].

(** ** Platform objects *)

(** One cache: absolute URL of a GET request, without its fragment, to
    the stored response. *)
Abbreviation Cache := (gmap string Response).

(** The origin's CacheStorage: named caches in creation order. *)
Abbreviation CacheStorage := (list (string * Cache)).

Record Client : Type := mkClient {
  client_url : string;
  has_focus : bool          (* ['focus' in client] *)
}.

Record Notification : Type := mkNotification {
  n_title : value;
  n_body : value;
  n_icon : string;
  n_badge : string;
  n_vibrate : list Z;
  n_data : value;           (* [notification.data], whatever was attached *)
  n_actions : list (string * string)
}.

(** [notification.data.url] of a notification whose [data] is an object
    ([undefined] when the object has no [url]). *)
Definition n_data_url (n : Notification) : value :=
  match get_prop (n_data n) "url" with
  | Some v => v
  | None => VUndefined
  end.

(** [event.data] of a push event: what its [json()] method does. *)
Record PushMessageData : Type := mkPushMessageData {
  json : settled value
}.

Record NotificationEvent : Type := mkNotificationEvent {
  notification : Notification;
  action : string           (* empty when the notification body was clicked *)
}.

(** Work started without anybody awaiting its promise.  The model runs
    such a call in one piece, after the promise chain that started it has
    settled. *)
Inductive task : Type :=
  | TaskFetchAndCache (request : Request)
  | TaskCachePut (cache : string) (request : Request) (response : Response)
  | TaskCacheDelete (cache : string).

(** What the outside can observe of a run. *)
Inductive effect : Type :=
  | EFetch (u : string)
  | ECachePut (cache u : string) (r : Response)
  | ECacheAddAll (cache : string) (us : list string)
  | ECacheDelete (cache : string)
  | ESkipWaiting
  | EClientsClaim
  | EShowNotification (n : Notification)
  | ENotificationClose
  | EClientFocus (c : Client)
  | EOpenWindow (target : value)
  | ERespondWith (r : settled (option Response))
  | EWaitUntil (r : settled unit).

Record World : Type := mkWorld {
  storage : CacheStorage;
  clients : list Client;
  clock : nat;               (* number of platform calls issued so far *)
  trace : list effect;
  detached : list task
}.

(** The part of the platform the script does not control. *)
Record Env : Type := mkEnv {
  origin : string;                              (* [self.location.origin] *)
  net : nat → string → option Response;         (* live fetch at a time; [None]: network error *)
  storage_fault : nat → bool;                   (* the storage call issued at that time rejects *)
  has_openWindow : bool;                        (* [clients.openWindow] is defined *)
  origin_no_fragment : cache_key origin = origin (* an origin is scheme://host:port *)
}.

(** ** Promises *)

Definition Promise (A : Type) : Type := World → settled A * World.

Definition resolve {A} (a : A) : Promise A := λ w, (Fulfilled a, w).
Definition reject {A} (e : error) : Promise A := λ w, (Rejected e, w).

(** [p.then(k)], and sequencing under [await]. *)
Definition then_ {A B} (p : Promise A) (k : A → Promise B) : Promise B :=
  λ w, match p w with
       | (Fulfilled a, w') => k a w'
       | (Rejected e, w') => (Rejected e, w')
       end.

(** [p.catch(h)], and [try { p } catch (e) { h e }]. *)
Definition catch_ {A} (p : Promise A) (h : error → Promise A) : Promise A :=
  λ w, match p w with
       | (Fulfilled a, w') => (Fulfilled a, w')
       | (Rejected e, w') => h e w'
       end.

Notation "'let*' x ':=' p 'in' k" := (then_ p (λ x, k))
  (at level 10, x name, p at level 100, k at level 200).
Notation "p ';;' k" := (then_ p (λ _, k))
  (at level 100, k at level 200, right associativity).

Definition emit (e : effect) : Promise unit :=
  λ w, (Fulfilled tt,
        mkWorld (storage w) (clients w) (clock w) (trace w ++ [e]) (detached w)).

Definition spawn (t : task) : Promise unit :=
  λ w, (Fulfilled tt,
        mkWorld (storage w) (clients w) (clock w) (trace w) (detached w ++ [t])).

Definition tick : Promise nat :=
  λ w, (Fulfilled (clock w),
        mkWorld (storage w) (clients w) (S (clock w)) (trace w) (detached w)).

Definition get_storage : Promise CacheStorage := λ w, (Fulfilled (storage w), w).

Definition set_storage (s : CacheStorage) : Promise unit :=
  λ w, (Fulfilled tt, mkWorld s (clients w) (clock w) (trace w) (detached w)).

(** [promise.then(...)] that nobody observes: the outcome is dropped, the
    effects stay. *)
Definition unawaited {A} (p : Promise A) : Promise unit :=
  λ w, (Fulfilled tt, snd (p w)).

Definition all_settled {A} (r : settled A) (rs : settled (list A)) : settled (list A) :=
  match r, rs with
  | Fulfilled a, Fulfilled l => Fulfilled (a :: l)
  | Rejected e, _ => Rejected e
  | Fulfilled _, Rejected e => Rejected e
  end.

(** [Promise.all]: every operation runs; the result rejects when one of
    them does. *)
Fixpoint promise_all {A} (ps : list (Promise A)) : Promise (list A) :=
  match ps with
  | [] => resolve []
  | p :: rest =>
      λ w, let (r, w1) := p w in
           let (rs, w2) := promise_all rest w1 in
           (all_settled r rs, w2)
  end.

(** ** CacheStorage as data *)

Fixpoint storage_find (name : string) (s : CacheStorage) : option Cache :=
  match s with
  | [] => None
  | (n, c) :: rest => if String.eqb n name then Some c else storage_find name rest
  end.

Definition storage_keys (s : CacheStorage) : list string := map fst s.

Definition storage_open (name : string) (s : CacheStorage) : CacheStorage :=
  match storage_find name s with
  | Some _ => s
  | None => s ++ [(name, ∅)]
  end.

Fixpoint storage_delete (name : string) (s : CacheStorage) : CacheStorage :=
  match s with
  | [] => []
  | (n, c) :: rest =>
      if String.eqb n name then storage_delete name rest
      else (n, c) :: storage_delete name rest
  end.

(** A write through a cache handle: it lands in the cache of that name
    while the cache is still listed, and is invisible otherwise.  The
    entry replaces the one stored for the same URL, fragment aside. *)
Fixpoint storage_put (name u : string) (r : Response) (s : CacheStorage) : CacheStorage :=
  match s with
  | [] => []
  | (n, c) :: rest =>
      if String.eqb n name then (n, <[cache_key u := r]> c) :: rest
      else (n, c) :: storage_put name u r rest
  end.

Definition storage_put_all (name : string) (entries : list (string * Response))
    (s : CacheStorage) : CacheStorage :=
  fold_left (λ acc e, storage_put name (fst e) (snd e) acc) entries s.

(** What remains after deleting the caches of the given names. *)
Definition storage_delete_all (names : list string) (s : CacheStorage) : CacheStorage :=
  fold_left (λ acc n, storage_delete n acc) names s.

(** [caches.match]: the first cache, in creation order, that holds the
    URL; the fragment of the URL plays no part in the comparison. *)
Fixpoint storage_match (u : string) (s : CacheStorage) : option Response :=
  match s with
  | [] => None
  | (_, c) :: rest =>
      match c !! cache_key u with
      | Some r => Some r
      | None => storage_match u rest
      end
  end.

(** [response.ok] *)
Definition response_ok (r : Response) : bool := (200 <=? status r) && (status r <=? 299).

(** ** The platform calls and the script, over a fixed environment *)

Section Worker.

Variable env : Env.

(** A storage call: it takes its turn on the clock and may reject. *)
Definition storage_call {A} (op : Promise A) : Promise A :=
  let* t := tick in
  if storage_fault env t then reject StorageError else op.

(** URLs given as strings are resolved against the worker's location. *)
Definition resolve_url (u : string) : string :=
  if startsWith u "/" then origin env ++ u else u.

(** [caches.open(name)] *)
Definition caches_open (name : string) : Promise string :=
  storage_call
    (let* s := get_storage in
     set_storage (storage_open name s) ;;
     resolve name).

(** [caches.match(request)], [caches.match('/path')] *)
Definition caches_match (u : string) : Promise (option Response) :=
  storage_call
    (let* s := get_storage in
     resolve (storage_match (resolve_url u) s)).

(** [caches.keys()] *)
Definition caches_keys : Promise (list string) :=
  storage_call
    (let* s := get_storage in
     resolve (storage_keys s)).

(** [caches.delete(name)] *)
Definition caches_delete (name : string) : Promise bool :=
  storage_call
    (let* s := get_storage in
     set_storage (storage_delete name s) ;;
     emit (ECacheDelete name) ;;
     resolve (bool_decide (is_Some (storage_find name s)))).

(** [cache.put(request, response)] on the handle of cache [name].  The
    script only calls it with GET requests and status-200 responses, for
    which the platform accepts the entry. *)
Definition cache_put (name : string) (request : Request) (response : Response)
    : Promise unit :=
  storage_call
    (let* s := get_storage in
     set_storage (storage_put name (url request) response s) ;;
     emit (ECachePut name (url request) response)).

(** [fetch(request)] *)
Definition fetch (u : string) : Promise Response :=
  let* t := tick in
  emit (EFetch u) ;;
  match net env t u with
  | Some r => resolve r
  | None => reject NetworkError
  end.

(** [cache.addAll(urls)]: every URL is fetched; one network error or one
    response that is not [ok] rejects the call and stores nothing. *)
Definition cache_addAll (name : string) (urls : list string) : Promise unit :=
  let* responses := promise_all (map (λ u, fetch (resolve_url u)) urls) in
  if forallb response_ok responses then
    storage_call
      (let* s := get_storage in
       set_storage (storage_put_all name (zip (map resolve_url urls) responses) s) ;;
       emit (ECacheAddAll name (map resolve_url urls)))
  else reject TypeError.

Definition skipWaiting : Promise unit := emit ESkipWaiting.
Definition clients_claim : Promise unit := emit EClientsClaim.

(** [event.waitUntil(p)] and [event.respondWith(p)]: the platform sees
    how [p] settles. *)
Definition waitUntil {A} (p : Promise A) : Promise unit :=
  λ w, let (r, w') := p w in
       emit (EWaitUntil match r with
                        | Fulfilled _ => Fulfilled tt
                        | Rejected e => Rejected e
                        end) w'.

Definition respondWith (p : Promise (option Response)) : Promise unit :=
  λ w, let (r, w') := p w in emit (ERespondWith r) w'.

(** *** install *)

(** The promise handed to [event.waitUntil]. *)
Definition install_work : Promise unit :=
  catch_
    (let* cache := caches_open CACHE_NAME in
     cache_addAll cache ASSETS_TO_CACHE ;;
     skipWaiting)
    (λ error, resolve tt).

Definition on_install : Promise unit := waitUntil install_work.

(** *** activate *)

(** The promise handed to [event.waitUntil]. *)
Definition activate_work : Promise unit :=
  let* cacheNames := caches_keys in
  promise_all
    (map caches_delete
         (List.filter (λ cacheName, negb (String.eqb cacheName CACHE_NAME))
                      cacheNames)) ;;
  clients_claim.

Definition on_activate : Promise unit := waitUntil activate_work.

(** *** fetchAndCache *)

(** The test guarding [cache.put]. *)
Definition cache_guard (u : string) : bool :=
  startsWith u (origin env)
  || includes u "fonts.googleapis.com"
  || includes u "fonts.gstatic.com"
  || includes u "cdnjs.cloudflare.com".

Definition fetchAndCache (request : Request) : Promise Response :=
  catch_
    (let* response := fetch (url request) in
     (if status response =? 200 then
        let* cache := caches_open CACHE_NAME in
        if cache_guard (url request)
        then spawn (TaskCachePut cache request response)
        else resolve tt
      else resolve tt) ;;
     resolve response)
    (λ error,
       let* cachedResponse := caches_match (url request) in
       match cachedResponse with
       | Some r => resolve r
       | None => reject error
       end).

(** *** fetch *)

Definition offline_response : Response := mkResponse "" 408 "Offline".

(** The promise handed to [event.respondWith]. *)
Definition fetch_pipeline (request : Request) : Promise Response :=
  let* cachedResponse := caches_match (url request) in
  match cachedResponse with
  | Some r => spawn (TaskFetchAndCache request) ;; resolve r
  | None => fetchAndCache request
  end.

Definition fetch_fallback (request : Request) (e : error) : Promise (option Response) :=
  if String.eqb (mode request) "navigate"
  then caches_match "/index.html"
  else resolve (Some offline_response).

Definition fetch_response (request : Request) : Promise (option Response) :=
  catch_
    (let* r := fetch_pipeline request in resolve (Some r))
    (fetch_fallback request).

Definition on_fetch (request : Request) : Promise unit :=
  if negb (String.eqb (method request) "GET") then resolve tt
  else if negb (startsWith (url request) "http") then resolve tt
  else respondWith (fetch_response request).

(** *** message *)

(** [event.data && event.data.type === lit] *)
Definition data_type_is (data : value) (lit : string) : bool :=
  truthy data &&
  match get_prop data "type" with
  | Some t => strict_eq_str t lit
  | None => false
  end.

Definition on_message (data : value) : Promise unit :=
  (if data_type_is data "SKIP_WAITING" then skipWaiting else resolve tt) ;;
  (if data_type_is data "CLEAR_CACHE"
   then spawn (TaskCacheDelete CACHE_NAME)
   else resolve tt).

(** *** sync, periodicsync *)

Definition on_sync (tag : string) : Promise unit :=
  if String.eqb tag "sync-study-data" then waitUntil (resolve tt) else resolve tt.

Definition on_periodicsync (tag : string) : Promise unit :=
  if String.eqb tag "daily-check" then waitUntil (resolve tt) else resolve tt.

(** *** push *)

Definition of_settled {A} (r : settled A) : Promise A := λ w, (r, w).

(** [data.k], throwing on [null]. *)
Definition prop (v : value) (k : string) : Promise value :=
  match get_prop v k with
  | Some x => resolve x
  | None => reject TypeError
  end.

(** [self.registration.showNotification(title, options)]; title, body and
    target are kept as the values the script computed. *)
Definition showNotification (n : Notification) : Promise unit :=
  emit (EShowNotification n).

Definition on_push (event_data : option PushMessageData) : Promise unit :=
  match event_data with
  | None => resolve tt
  | Some d =>
      let* data := of_settled (json d) in
      let* data_body := prop data "body" in
      let* data_url := prop data "url" in
      let* data_title := prop data "title" in
      waitUntil
        (showNotification
           {| n_title := js_or data_title (VStr "Solo Leveling System");
              n_body := js_or data_body (VStr "Time to study!");
              n_icon := "/icon-192.png";
              n_badge := "/icon-192.png";
              n_vibrate := [100; 50; 100];
              n_data := VObj [("url", js_or data_url (VStr "/"))];
              n_actions := [("open", "Open App"); ("dismiss", "Dismiss")] |})
  end.

(** *** notificationclick *)

Definition clients_matchAll : Promise (list Client) :=
  λ w, (Fulfilled (clients w), w).

Definition client_focus (c : Client) : Promise unit := emit (EClientFocus c).
Definition clients_openWindow (target : value) : Promise unit := emit (EOpenWindow target).

Definition on_notificationclick (event : NotificationEvent) : Promise unit :=
  emit ENotificationClose ;;
  if String.eqb (action event) "open" || String.eqb (action event) ""
  then
    waitUntil
      (let* clientList := clients_matchAll in
       match List.find (λ client, includes (client_url client) (origin env) && has_focus client)
                       clientList with
       | Some client => client_focus client
       | None =>
           if has_openWindow env
           then
             let* target := prop (n_data (notification event)) "url" in
             clients_openWindow (js_or target (VStr "/"))
           else resolve tt
       end)
  else resolve tt.

(** *** Detached work *)

Definition run_task (t : task) : Promise unit :=
  match t with
  | TaskFetchAndCache request => unawaited (fetchAndCache request)
  | TaskCachePut cache request response => unawaited (cache_put cache request response)
  | TaskCacheDelete cache => unawaited (caches_delete cache)
  end.

Definition with_detached (ts : list task) (w : World) : World :=
  mkWorld (storage w) (clients w) (clock w) (trace w) ts.

(** Run the detached tasks in the order they were started; tasks they
    start in turn go to the back of the queue. *)
Fixpoint drain (fuel : nat) (w : World) : World :=
  match fuel with
  | O => w
  | S fuel' =>
      match detached w with
      | [] => w
      | t :: rest => drain fuel' (snd (run_task t (with_detached rest w)))
      end
  end.

Definition task_weight (t : task) : nat :=
  match t with
  | TaskFetchAndCache _ => 2
  | _ => 1
  end.

Definition queue_weight (ts : list task) : nat :=
  foldr (λ t n, task_weight t + n)%nat O ts.

(** The world once everything a handler left running has finished. *)
Definition quiesce (w : World) : World := drain (queue_weight (detached w)) w.

(** An event, handled to the end. *)
Definition handle (h : Promise unit) (w : World) : World := quiesce (snd (h w)).

End Worker.

(** ** Notions of the specification *)

(** The responses handed to the page so far. *)
Definition responses (tr : list effect) : list (settled (option Response)) :=
  omap (λ e, match e with ERespondWith r => Some r | _ => None end) tr.

(** The cache writes made so far. *)
Definition cache_writes (tr : list effect) : list (string * Response) :=
  omap (λ e, match e with ECachePut _ u r => Some (u, r) | _ => None end) tr.

(** A read against the current cache generation. *)
Definition generation_match (u : string) (s : CacheStorage) : option Response :=
  match storage_find CACHE_NAME s with
  | Some c => c !! cache_key u
  | None => None
  end.

(** URL components, as the URL standard splits an absolute URL
    [scheme://userinfo@host:port/path?query#fragment]. *)
Definition url_scheme (u : string) : string := take_until (is_char ":") u.

(** Everything between [scheme://] and the path, query or fragment. *)
Definition url_authority (u : string) : string :=
  match drop_until (is_char ":") u with
  | String ":" (String "/" (String "/" rest)) =>
      take_until (λ c, is_char "/" c || is_char "?" c || is_char "#" c) rest
  | _ => EmptyString
  end.

Definition url_hostport (u : string) : string :=
  let a := url_authority u in
  if includes a "@"
  then match drop_until (is_char "@") a with
       | String _ rest => rest
       | EmptyString => EmptyString
       end
  else a.

Definition url_host (u : string) : string := take_until (is_char ":") (url_hostport u).

Definition url_origin (u : string) : string := url_scheme u ++ "://" ++ url_hostport u.

(** The Eligibility Set of the specification: the worker's own origin and
    the three named hosts. *)
Definition ELIGIBLE_HOSTS : list string :=
  [ "fonts.googleapis.com"; "fonts.gstatic.com"; "cdnjs.cloudflare.com" ].

Definition in_eligibility_set (env : Env) (u : string) : bool :=
  String.eqb (url_origin u) (origin env)
  || existsb (String.eqb (url_host u)) ELIGIBLE_HOSTS.

(** The URL schemes a request can carry when a browser hands it to the
    fetch handler or could be asked to fetch it at all: the two network
    schemes, for which the Fetch standard consults the service worker, and
    the extension and local schemes that the handler's guard is there to
    skip. *)
Definition FETCH_EVENT_SCHEMES : list string :=
  [ "http"; "https";
    "chrome-extension"; "moz-extension"; "safari-web-extension"; "ms-browser-extension";
    "chrome"; "about"; "blob"; "data"; "file"; "filesystem"; "ftp"; "ws"; "wss" ].

(** A network-addressable scheme. *)
Definition http_scheme (u : string) : bool :=
  String.eqb (url_scheme u) "http" || String.eqb (url_scheme u) "https".

(** A write is sound when it stores a status-200 response under a URL
    that passed the guard of [fetchAndCache]. *)
Definition sound_write (env : Env) (e : string * Response) : Prop :=
  status (snd e) = 200 ∧ cache_guard env (fst e) = true.

Definition sound_task (env : Env) (t : task) : Prop :=
  match t with
  | TaskCachePut _ request r => sound_write env (url request, r)
  | _ => True
  end.

(** The invariant of the fetch path: all writes made, and all writes
    still queued, are sound. *)
Definition sound_world (env : Env) (w : World) : Prop :=
  Forall (sound_write env) (cache_writes (trace w)) ∧ Forall (sound_task env) (detached w).

(** A queued piece of work that can only write to the current
    generation: a refresh, or a write through the handle of CACHE_NAME. *)
Definition writes_current_only (t : task) : Prop :=
  match t with
  | TaskFetchAndCache _ => True
  | TaskCachePut cache _ _ => cache = CACHE_NAME
  | TaskCacheDelete _ => False
  end.

(** A queued refresh of a URL that does not pass the guard. *)
Definition unguarded_refresh (env : Env) (t : task) : Prop :=
  match t with
  | TaskFetchAndCache request => cache_guard env (url request) = false
  | _ => False
  end.

(** What the network answers to a batch of fetches issued one after the
    other from time [t] on; [None] when one of them fails. *)
Fixpoint fetched (env : Env) (t : nat) (urls : list string) : option (list Response) :=
  match urls with
  | [] => Some []
  | u :: rest =>
      match net env t u, fetched env (S t) rest with
      | Some r, Some rs => Some (r :: rs)
      | _, _ => None
      end
  end.

(** The seed manifest as the install handler requests it. *)
Definition seed_urls (env : Env) : list string := map (resolve_url env) ASSETS_TO_CACHE.

Fixpoint last_char (s : string) : option ascii :=
  match s with
  | EmptyString => None
  | String c EmptyString => Some c
  | String _ rest => last_char rest
  end.

(** The names the activate handler asks to delete. *)
Definition stale_names (s : CacheStorage) : list string :=
  List.filter (λ cacheName, negb (String.eqb cacheName CACHE_NAME)) (storage_keys s).

(** Of a batch of deletions issued one after the other from time [t] on,
    those the storage does not refuse. *)
Fixpoint deleted_names (env : Env) (t : nat) (names : list string) : list string :=
  match names with
  | [] => []
  | n :: rest =>
      if storage_fault env t then deleted_names env (S t) rest
      else n :: deleted_names env (S t) rest
  end.

(** The window operations in a trace. *)
Definition window_actions (tr : list effect) : list effect :=
  List.filter (λ e, match e with EClientFocus _ | EOpenWindow _ => true | _ => false end) tr.

(** ** Concrete platforms, worlds and events *)

Definition app_origin : string := "https://app.example".

Definition ok_response (b : string) : Response := mkResponse b 200 "OK".

(** A platform where every fetch succeeds and storage never fails. *)
Definition online : Env :=
  mkEnv app_origin (λ _ _, Some (ok_response "live")) (λ _, false) true eq_refl.

(** No network at all. *)
Definition offline : Env :=
  mkEnv app_origin (λ _ _, None) (λ _, false) true eq_refl.

(** The script CDN is unreachable, everything else answers. *)
Definition cdn_down : Env :=
  mkEnv app_origin
        (λ _ u, if includes u "cdnjs.cloudflare.com" then None
                else Some (ok_response "live"))
        (λ _, false) true eq_refl.

(** The network answers, but the third platform call of the run, which
    is [caches.open] in [fetchAndCache], is refused by the storage. *)
Definition open_refused : Env :=
  mkEnv app_origin (λ _ _, Some (ok_response "live")) (λ t, Nat.eqb t 2) true eq_refl.

Definition fresh_world : World := mkWorld [] [] 0 [] [].

(** The app shell is in the current generation. *)
Definition shell_cached : World :=
  mkWorld [(CACHE_NAME, {[ "https://app.example/index.html" := ok_response "shell" ]})]
          [] 0 [] [].

(** Two stale generations next to the current one. *)
Definition three_generations : World :=
  mkWorld [("solo-leveling-v0.8.0", ∅);
           (CACHE_NAME, {[ "https://app.example/index.html" := ok_response "shell" ]});
           ("solo-leveling-v0.9.0", ∅)]
          [] 0 [] [].

(** One page of the app is open. *)
Definition one_page_open : World :=
  mkWorld [] [mkClient "https://app.example/" true] 0 [] [].

Definition get_request (u : string) : Request := mkRequest "GET" u "cors".
Definition navigation (u : string) : Request := mkRequest "GET" u "navigate".

(** A URL on a foreign host that carries an allowed host name in its path. *)
Definition foreign_url : string := "https://evil.example/fonts.googleapis.com/track.js".


Definition session_notification : Notification :=
  {| n_title := VStr "Reminder";
     n_body := VStr "Study now";
     n_icon := "/icon-192.png";
     n_badge := "/icon-192.png";
     n_vibrate := [100; 50; 100];
     n_data := VObj [("url", VStr "/session")];
     n_actions := [("open", "Open App"); ("dismiss", "Dismiss")] |}.

(** A notification shown with a data object that names no target. *)
Definition plain_notification : Notification :=
  {| n_title := VStr "Hello";
     n_body := VStr "";
     n_icon := "";
     n_badge := "";
     n_vibrate := [];
     n_data := VObj [];
     n_actions := [] |}.

(** A notification shown without data. *)
Definition bare_notification : Notification :=
  {| n_title := VStr "Hello";
     n_body := VStr "";
     n_icon := "";
     n_badge := "";
     n_vibrate := [];
     n_data := VNull;
     n_actions := [] |}.

Definition default_notification : Notification :=
  {| n_title := VStr "Solo Leveling System";
     n_body := VStr "Time to study!";
     n_icon := "/icon-192.png";
     n_badge := "/icon-192.png";
     n_vibrate := [100; 50; 100];
     n_data := VObj [("url", VStr "/")];
     n_actions := [("open", "Open App"); ("dismiss", "Dismiss")] |}.

(** Every fetch is answered with 404. *)
Definition not_found : Env :=
  mkEnv app_origin (λ _ _, Some (mkResponse "missing" 404 "Not Found")) (λ _, false) true eq_refl.

(** The network answers during the first seven platform calls and is
    unreachable afterwards. *)
Definition online_then_offline : Env :=
  mkEnv app_origin
        (λ t _, if (t <? 7)%nat then Some (ok_response "live") else None)
        (λ _, false) true eq_refl.

(** The storage refuses the third platform call of the run, which is the
    second deletion of an activation. *)
Definition second_delete_refused : Env :=
  mkEnv app_origin (λ _ _, Some (ok_response "live")) (λ t, Nat.eqb t 2) true eq_refl.

Definition five_live : list Response :=
  [ok_response "live"; ok_response "live"; ok_response "live";
   ok_response "live"; ok_response "live"].

(** ** Basic facts *)

Ltac unfold_promise :=
  unfold then_, catch_, resolve, reject, emit, spawn, tick, get_storage,
    set_storage, unawaited, of_settled in *.

Ltac unfold_platform :=
  unfold caches_open, caches_match, caches_keys, caches_delete, cache_put,
    fetch, skipWaiting, clients_claim, waitUntil, respondWith, storage_call,
    showNotification, clients_matchAll, client_focus, clients_openWindow, prop in *.

Lemma startsWith_http_not_relative u :
  startsWith u "http" = true → startsWith u "/" = false.
Proof.
  destruct u as [|c u']; [done|].
  cbn [startsWith]. destruct (Ascii.eqb_spec "h" c) as [<-|]; [|done].
  done.
Qed.

Lemma resolve_url_absolute env u :
  startsWith u "http" = true → resolve_url env u = u.
Proof.
  intros H. unfold resolve_url. by rewrite (startsWith_http_not_relative u H).
Qed.

Lemma responses_app tr1 tr2 : responses (tr1 ++ tr2) = responses tr1 ++ responses tr2.
Proof. apply omap_app. Qed.

Lemma cache_writes_app tr1 tr2 :
  cache_writes (tr1 ++ tr2) = cache_writes tr1 ++ cache_writes tr2.
Proof. apply omap_app. Qed.

(** *** fetchAndCache, case by case *)

Section FetchAndCache.

Variable env : Env.

(** What a run of [fetchAndCache] can add to the world: one fetch, at
    most one detached write, and never a response to the page. *)
Lemma fetchAndCache_frame request w :
  ∃ late,
    trace (snd (fetchAndCache env request w)) = trace w ++ [EFetch (url request)] ∧
    detached (snd (fetchAndCache env request w)) = detached w ++ late ∧
    (late = [] ∨
     ∃ r, late = [TaskCachePut CACHE_NAME request r] ∧
          status r = 200 ∧ cache_guard env (url request) = true).
Proof.
  unfold fetchAndCache. unfold_platform. unfold_promise. simpl.
  destruct (net env (clock w) (url request)) as [r|] eqn:Hnet; simpl.
  - destruct (status r =? 200) eqn:Hst; simpl.
    + destruct (storage_fault env (S (clock w))) eqn:Hf; simpl.
      * destruct (storage_fault env (S (S (clock w)))); simpl.
        -- exists []. rewrite app_nil_r. eauto.
        -- exists []. rewrite app_nil_r.
           destruct (storage_match _ _); simpl; eauto.
      * destruct (cache_guard env (url request)) eqn:Hg; simpl.
        -- exists [TaskCachePut CACHE_NAME request r]. split_and!; [done..|].
           right. exists r. split_and!; [done| |done]. by apply Z.eqb_eq.
        -- exists []. rewrite app_nil_r. eauto.
    + exists []. rewrite app_nil_r. eauto.
  - destruct (storage_fault env (S (clock w))); simpl.
    + exists []. rewrite app_nil_r. eauto.
    + exists []. rewrite app_nil_r. destruct (storage_match _ _); simpl; eauto.
Qed.

End FetchAndCache.

(** *** Detached tasks and the scheduler *)

Section Scheduler.

Variable env : Env.

Lemma run_task_frame t w :
  ∃ tr late,
    trace (snd (run_task env t w)) = trace w ++ tr ∧
    detached (snd (run_task env t w)) = detached w ++ late ∧
    responses tr = [] ∧
    (queue_weight late < task_weight t)%nat ∧
    (sound_task env t →
     Forall (sound_write env) (cache_writes tr) ∧ Forall (sound_task env) late).
Proof.
  destruct t as [request|cache request r|cache]; simpl.
  - destruct (fetchAndCache_frame env request w) as (late & Htr & Hd & Hlate).
    exists [EFetch (url request)], late. split_and!; [done..| |].
    + destruct Hlate as [->|(r & -> & _)]; cbv [queue_weight foldr task_weight]; lia.
    + intros _. split; [constructor|].
      destruct Hlate as [->|(r & -> & Hs & Hg)]; [done|].
      constructor; [by split|constructor].
  - unfold_platform. unfold_promise. simpl.
    destruct (storage_fault env (clock w)); simpl.
    + exists [], []. rewrite !app_nil_r. split_and!; [done..|cbv; lia|done].
    + exists [ECachePut cache (url request) r], [].
      rewrite app_nil_r. split_and!; [done..|cbv; lia|].
      intros Ht. split; [|done]. cbn. constructor; [exact Ht|constructor].
  - unfold_platform. unfold_promise. simpl.
    destruct (storage_fault env (clock w)); simpl.
    + exists [], []. rewrite !app_nil_r. split_and!; [done..|cbv; lia|done].
    + exists [ECacheDelete cache], []. rewrite app_nil_r.
      split_and!; [done..|cbv; lia|done].
Qed.

Lemma queue_weight_app ts1 ts2 :
  queue_weight (ts1 ++ ts2) = (queue_weight ts1 + queue_weight ts2)%nat.
Proof. induction ts1 as [|t ts1 IH]; simpl; [done|]. rewrite IH. lia. Qed.

(** With fuel for the whole queue the scheduler empties it; it never
    answers a fetch event, and it keeps the writes sound. *)
Lemma drain_spec fuel w :
  (queue_weight (detached w) ≤ fuel)%nat →
  detached (drain env fuel w) = [] ∧
  responses (trace (drain env fuel w)) = responses (trace w) ∧
  (sound_world env w → sound_world env (drain env fuel w)).
Proof.
  revert w. induction fuel as [|fuel IH]; intros w Hfuel.
  - simpl. split_and!; [|done|done].
    destruct (detached w) as [|t ts]; [done|].
    destruct t; cbv [queue_weight foldr task_weight] in Hfuel; lia.
  - simpl. destruct (detached w) as [|t ts] eqn:Hdet.
    { by rewrite Hdet. }
    destruct (run_task_frame t (with_detached ts w))
      as (tr & late & Htr & Hd & Hresp & Hlt & Hsound).
    simpl in Htr, Hd.
    destruct (IH (snd (run_task env t (with_detached ts w)))) as (H1 & H2 & H3).
    + rewrite Hd, queue_weight_app.
      change (queue_weight (t :: ts)) with (task_weight t + queue_weight ts)%nat in Hfuel.
      lia.
    + split_and!; [done| |].
      * rewrite H2, Htr, responses_app, Hresp. by rewrite app_nil_r.
      * intros [Hw Hq]. rewrite Hdet in Hq.
        apply Forall_cons in Hq as [Ht Hts].
        destruct (Hsound Ht) as [Hwr Hlate].
        apply H3. split.
        -- rewrite Htr, cache_writes_app. by apply Forall_app.
        -- rewrite Hd. by apply Forall_app.
Qed.

Lemma quiesce_spec w :
  detached (quiesce env w) = [] ∧
  responses (trace (quiesce env w)) = responses (trace w) ∧
  (sound_world env w → sound_world env (quiesce env w)).
Proof. by apply drain_spec. Qed.

End Scheduler.

(** ** The fetch handler *)

Section Fetch.

Variable env : Env.

(** C1.  For an intercepted request (GET, URL beginning with http) whose
    cache lookup finds a stored entry, the handler answers with exactly
    that entry, without waiting for the network, and leaves one detached
    [fetchAndCache] of the same request running, which issues a live
    fetch of the request's URL; however that refresh and the writes it
    starts turn out, under any behaviour of network and storage, the
    answer given to the page stays the cached entry. *)
Theorem C1_cached_entry_served (request : Request) (w : World) (cached : Response) :
  method request = "GET" →
  startsWith (url request) "http" = true →
  storage_fault env (clock w) = false →
  storage_match (url request) (storage w) = Some cached →
  ∃ w',
    on_fetch env request w = (Fulfilled tt, w') ∧
    trace w' = trace w ++ [ERespondWith (Fulfilled (Some cached))] ∧
    detached w' = detached w ++ [TaskFetchAndCache request] ∧
    (∀ env' w'', trace (snd (run_task env' (TaskFetchAndCache request) w''))
                 = trace w'' ++ [EFetch (url request)]) ∧
    ∀ env', responses (trace (quiesce env' w'))
            = responses (trace w) ++ [Fulfilled (Some cached)].
Proof.
  intros Hm Hu Hf Hc. unfold on_fetch. rewrite Hm, Hu. simpl.
  unfold fetch_response, fetch_pipeline, caches_match.
  rewrite (resolve_url_absolute env _ Hu).
  unfold_platform. unfold_promise. cbn. rewrite Hf. cbn. rewrite Hc. cbn.
  eexists. split_and!; [done..| |].
  { intros env' w''. cbn.
    by destruct (fetchAndCache_frame env' request w'') as (late & -> & _). }
  intros env'.
  destruct (quiesce_spec env'
    {| storage := storage w; clients := clients w; clock := S (clock w);
       trace := trace w ++ [ERespondWith (Fulfilled (Some cached))];
       detached := detached w ++ [TaskFetchAndCache request] |}) as (_ & -> & _).
  simpl. by rewrite responses_app.
Qed.

(** C2, as the code has it.  When the promise chain of an intercepted
    request rejects, the handler answers a navigation request with what a
    lookup of '/index.html' in the caches finds: the stored app shell
    document when there is one, no response at all when there is none, and
    the storage error when the lookup is refused.  Any other request gets
    a synthesized response of empty body, status 408 and status text
    "Offline". *)
Theorem C2_failure_fallback (request : Request) (w w1 : World) (e : error) :
  method request = "GET" →
  startsWith (url request) "http" = true →
  fetch_pipeline env request w = (Rejected e, w1) →
  ∃ w',
    on_fetch env request w = (Fulfilled tt, w') ∧
    trace w' = trace w1 ++
      [ERespondWith
         (if String.eqb (mode request) "navigate"
          then
            if storage_fault env (clock w1) then Rejected StorageError
            else Fulfilled (storage_match (origin env ++ "/index.html")%string (storage w1))
          else Fulfilled (Some {| body := ""; status := 408; statusText := "Offline" |}))].
Proof.
  intros Hm Hu Hp. unfold on_fetch. rewrite Hm, Hu. cbn.
  unfold respondWith, fetch_response, catch_, then_. rewrite Hp.
  unfold fetch_fallback.
  destruct (String.eqb (mode request) "navigate").
  - unfold_platform. unfold_promise. cbn.
    destruct (storage_fault env (clock w1)); cbn; eexists; split; done.
  - cbn. eexists; split; done.
Qed.

End Fetch.

(** ** Activation *)

Lemma storage_keys_delete name x s :
  name ∈ storage_keys (storage_delete x s) ↔ name ∈ storage_keys s ∧ name ≠ x.
Proof.
  induction s as [|[n c] s IH]; simpl.
  - split; [by intros ?%elem_of_nil|by intros [?%elem_of_nil _]].
  - destruct (String.eqb_spec n x) as [->|Hne]; simpl.
    + rewrite IH, elem_of_cons. naive_solver.
    + rewrite !elem_of_cons, IH. naive_solver.
Qed.

Lemma storage_keys_delete_NoDup x s :
  NoDup (storage_keys s) → NoDup (storage_keys (storage_delete x s)).
Proof.
  induction s as [|[n c] s IH]; simpl; [done|].
  intros [Hn Hs]%NoDup_cons. destruct (String.eqb n x); simpl; [by apply IH|].
  apply NoDup_cons. split; [|by apply IH].
  rewrite storage_keys_delete. naive_solver.
Qed.

Lemma storage_find_delete_ne name x s :
  name ≠ x → storage_find name (storage_delete x s) = storage_find name s.
Proof.
  intros Hne. induction s as [|[n c] s IH]; simpl; [done|].
  destruct (String.eqb_spec n x) as [->|Hnx]; simpl.
  - rewrite IH. by destruct (String.eqb_spec x name) as [->|].
  - by rewrite IH.
Qed.

Lemma storage_delete_all_spec names s :
  (∀ name, name ∈ storage_keys (storage_delete_all names s)
           ↔ name ∈ storage_keys s ∧ name ∉ names) ∧
  (NoDup (storage_keys s) → NoDup (storage_keys (storage_delete_all names s))) ∧
  (∀ name, name ∉ names →
           storage_find name (storage_delete_all names s) = storage_find name s).
Proof.
  revert s. induction names as [|x names IH]; intros s; simpl.
  - split_and!; [|done|done]. intros name. rewrite elem_of_nil. naive_solver.
  - destruct (IH (storage_delete x s)) as (Hk & Hnd & Hfind). split_and!.
    + intros name. rewrite Hk, storage_keys_delete, elem_of_cons. naive_solver.
    + intros H. by apply Hnd, storage_keys_delete_NoDup.
    + intros name [Hx Hn]%not_elem_of_cons.
      rewrite Hfind by done. by apply storage_find_delete_ne.
Qed.

(** [Promise.all] over the deletions fulfils only when every deletion
    went through. *)
Lemma delete_all_fulfilled env names w bs w' :
  promise_all (map (caches_delete env) names) w = (Fulfilled bs, w') →
  storage w' = storage_delete_all names (storage w) ∧
  trace w' = trace w ++ map ECacheDelete names ∧
  detached w' = detached w.
Proof.
  revert w bs. induction names as [|x names IH]; intros w bs; simpl.
  - unfold resolve. intros [= _ <-]. by rewrite app_nil_r.
  - destruct (caches_delete env x w) as [r w1] eqn:Hdel.
    destruct (promise_all (map (caches_delete env) names) w1) as [rs w2] eqn:Hall.
    destruct r as [b|e]; [|done]. destruct rs as [bs'|e]; [|done].
    simpl. intros [= _ <-].
    destruct (IH _ _ Hall) as (Hs & Ht & Hd).
    revert Hdel. unfold_platform. unfold_promise. cbn.
    destruct (storage_fault env (clock w)); [done|]. cbn. intros [= _ <-].
    cbn in *. rewrite Hs, Ht, Hd, <- app_assoc. done.
Qed.

(** C4.  When the activate handler completes (the platform sees the
    promise given to [waitUntil] fulfilled), every cache whose name is not
    CACHE_NAME has been deleted, so at most one cache generation is left
    (and it is the current one, untouched), and [clients.claim] was called
    only after the deletions. *)
Theorem C4_activate_single_generation (env : Env) (w : World) :
  NoDup (storage_keys (storage w)) →
  last (trace (snd (on_activate env w))) = Some (EWaitUntil (Fulfilled tt)) →
  (∀ name, name ∈ storage_keys (storage (snd (on_activate env w))) → name = CACHE_NAME) ∧
  (List.length (storage (snd (on_activate env w))) ≤ 1)%nat ∧
  storage_find CACHE_NAME (storage (snd (on_activate env w)))
    = storage_find CACHE_NAME (storage w) ∧
  trace (snd (on_activate env w))
    = trace w
      ++ map ECacheDelete
           (List.filter (λ cacheName, negb (String.eqb cacheName CACHE_NAME))
                        (storage_keys (storage w)))
      ++ [EClientsClaim; EWaitUntil (Fulfilled tt)].
Proof.
  intros Hnd. unfold on_activate, waitUntil, activate_work.
  unfold caches_keys, storage_call, clients_claim. unfold_promise. cbn.
  destruct (storage_fault env (clock w)); cbn.
  { rewrite last_snoc. done. }
  set (names := List.filter _ _).
  destruct (promise_all _ _) as [[bs|e] w1] eqn:Hall; cbn.
  2:{ rewrite last_snoc. done. }
  intros _. apply delete_all_fulfilled in Hall as (Hs & Ht & _). cbn in Hs, Ht.
  destruct (storage_delete_all_spec names (storage w)) as (Hk & Hnd' & Hfind).
  assert (Hall : ∀ name, name ∈ storage_keys (storage w1) → name = CACHE_NAME).
  { intros name. rewrite Hs, Hk. intros [Hin Hout].
    destruct (String.eqb_spec name CACHE_NAME) as [|Hne]; [done|].
    exfalso. apply Hout. unfold names. apply list_elem_of_In, filter_In.
    split; [by apply list_elem_of_In|].
    by destruct (String.eqb_spec name CACHE_NAME). }
  split_and!.
  - done.
  - specialize (Hnd' Hnd). rewrite <- Hs in Hnd'.
    unfold storage_keys in *. rewrite <- (length_map fst).
    destruct (map fst (storage w1)) as [|a [|b l]]; simpl; [lia|lia|].
    exfalso. apply NoDup_cons in Hnd' as [Hab _]. apply Hab.
    rewrite (Hall a), (Hall b); set_solver.
  - rewrite Hs. apply Hfind. unfold names.
    rewrite list_elem_of_In, filter_In. intros [_ H].
    by rewrite String.eqb_refl in H.
  - rewrite Ht. by rewrite <- !app_assoc.
Qed.

(** ** What the fetch handler intercepts, and what it writes *)

Lemma startsWith_take_until stop u : startsWith u (take_until stop u) = true.
Proof.
  induction u as [|c u IH]; [done|]. cbn [take_until].
  destruct (stop c); [done|]. cbn [startsWith]. by rewrite Ascii.eqb_refl.
Qed.

Lemma startsWith_trans u p q :
  startsWith u p = true → startsWith p q = true → startsWith u q = true.
Proof.
  revert u p. induction q as [|c q IH]; intros u p; [done|].
  destruct p as [|b p]; [done|]. destruct u as [|a u]; [done|].
  cbn [startsWith]. intros [Hba Hup]%andb_true_iff [Hcb Hpq]%andb_true_iff.
  apply Ascii.eqb_eq in Hba as ->. rewrite Hcb. cbn. by apply (IH u p).
Qed.

(** Every URL whose scheme is http or https begins with the four
    characters the handler tests for. *)
Lemma http_scheme_startsWith u :
  http_scheme u = true → startsWith u "http" = true.
Proof.
  unfold http_scheme, url_scheme. intros [H|H]%orb_true_iff.
  - apply String.eqb_eq in H. rewrite <- H. apply startsWith_take_until.
  - apply String.eqb_eq in H.
    apply (startsWith_trans u "https" "http"); [|done].
    rewrite <- H. apply startsWith_take_until.
Qed.

(** Two prefixes of one string are prefixes of each other, one way or
    the other. *)
Lemma prefixes_comparable u p q :
  startsWith u p = true → startsWith u q = true →
  startsWith p q = true ∨ startsWith q p = true.
Proof.
  revert u q. induction p as [|a p IH]; intros u q; [by right|].
  destruct q as [|b q]; [by left|]. destruct u as [|c u]; [done|].
  cbn [startsWith]. intros [Hac Hp]%andb_true_iff [Hbc Hq]%andb_true_iff.
  apply Ascii.eqb_eq in Hac as ->. apply Ascii.eqb_eq in Hbc as ->.
  rewrite !Ascii.eqb_refl. cbn [andb]. by apply (IH u q).
Qed.

(** On the schemes a fetch event can carry, the handler's test of the
    first four characters decides exactly whether the scheme is http or
    https. *)
Lemma known_scheme_guard u :
  url_scheme u ∈ FETCH_EVENT_SCHEMES → startsWith u "http" = http_scheme u.
Proof.
  intros Hin. destruct (http_scheme u) eqn:Hs; [by apply http_scheme_startsWith|].
  apply not_true_is_false. intros Hhttp.
  pose proof (startsWith_take_until (is_char ":") u) as Hpre.
  fold (url_scheme u) in Hpre.
  destruct (prefixes_comparable _ _ _ Hpre Hhttp) as [Hcmp|Hcmp];
    unfold http_scheme in Hs; unfold FETCH_EVENT_SCHEMES in Hin;
    repeat (apply elem_of_cons in Hin as [Heq|Hin];
            [rewrite Heq in Hs, Hcmp; cbv in Hs, Hcmp; discriminate|]);
    by apply elem_of_nil in Hin.
Qed.

Section Interception.

Variable env : Env.

(** Before it answers, the promise chain of the handler makes no cache
    write and gives no response; what it leaves queued is sound. *)
Lemma fetch_response_frame request w :
  ∃ tr late,
    trace (snd (fetch_response env request w)) = trace w ++ tr ∧
    detached (snd (fetch_response env request w)) = detached w ++ late ∧
    responses tr = [] ∧
    cache_writes tr = [] ∧
    Forall (sound_task env) late.
Proof.
  unfold fetch_response, fetch_pipeline, fetch_fallback.
  unfold caches_match, storage_call. unfold_promise. cbn.
  destruct (storage_fault env (clock w)) eqn:Hf; cbn.
  - destruct (mode request =? "navigate")%string; cbn.
    + destruct (storage_fault env (S (clock w))); cbn;
        exists [], []; by rewrite !app_nil_r.
    + exists [], []; by rewrite !app_nil_r.
  - destruct (storage_match _ _) as [cached|]; cbn.
    + exists [], [TaskFetchAndCache request]. rewrite app_nil_r.
      split_and!; [done..|]. by repeat constructor.
    + match goal with |- context [fetchAndCache env request ?w1] =>
        destruct (fetchAndCache_frame env request w1) as (late & Htr & Hd & Hlate);
        destruct (fetchAndCache env request w1) as [[r|e] w2]
      end; cbn in *.
      * exists [EFetch (url request)], late. split_and!; [done..|].
        destruct Hlate as [->|(r' & -> & Hs & Hg)]; [done|].
        constructor; [by split|constructor].
      * assert (Forall (sound_task env) late) as Hsound.
        { destruct Hlate as [->|(r' & -> & Hs & Hg)]; [done|].
          constructor; [by split|constructor]. }
        destruct (mode request =? "navigate")%string; cbn.
        -- destruct (storage_fault env (clock w2)); cbn;
             by exists [EFetch (url request)], late.
        -- by exists [EFetch (url request)], late.
Qed.

(** The fetch path keeps the soundness of cache writes: whatever the
    request, every write made once the event is fully handled stores a
    status-200 response under a URL that passed the guard. *)
Lemma on_fetch_sound request w :
  sound_world env w → sound_world env (handle env (on_fetch env request) w).
Proof.
  intros [Hw Hq]. unfold handle. apply quiesce_spec.
  unfold on_fetch.
  destruct (negb (method request =? "GET")%string); [done|].
  destruct (negb (startsWith (url request) "http")); [done|].
  unfold respondWith.
  destruct (fetch_response_frame request w) as (tr & late & Htr & Hd & _ & Hcw & Hlate).
  destruct (fetch_response env request w) as [r w1]. cbn in *.
  split; cbn.
  - rewrite Htr, !cache_writes_app, Hcw. cbn. by rewrite !app_nil_r.
  - rewrite Hd. by apply Forall_app.
Qed.

(** The guard as it is written: the handler answers exactly the requests
    whose method is GET and whose URL begins with the characters "http",
    which every http and https URL does; any other request is left
    alone. *)
Lemma on_fetch_guard (request : Request) (w : World) :
  ((method request = "GET" ∧ startsWith (url request) "http" = true ∧
    ∃ r w1, on_fetch env request w = (Fulfilled tt, w1) ∧
            responses (trace w1) = responses (trace w) ++ [r])
   ∨
   ((method request ≠ "GET" ∨ startsWith (url request) "http" = false) ∧
    on_fetch env request w = (Fulfilled tt, w)))
  ∧ (http_scheme (url request) = false ∨ startsWith (url request) "http" = true).
Proof.
  split.
  - unfold on_fetch.
    destruct (String.eqb_spec (method request) "GET") as [Hm|Hm]; cbn [negb].
    2:{ right. split; [by left|reflexivity]. }
    destruct (startsWith (url request) "http") eqn:Hu; cbn [negb].
    2:{ right. split; [by right|reflexivity]. }
    left. split_and!; [done..|]. unfold respondWith.
    destruct (fetch_response_frame request w) as (tr & late & Htr & _ & Hresp & _).
    destruct (fetch_response env request w) as [r w1]. cbn in *.
    exists r. eexists. split; [done|]. cbn.
    by rewrite Htr, !responses_app, Hresp, app_nil_r.
  - destruct (http_scheme (url request)) eqn:Hs; [|by left].
    right. by apply http_scheme_startsWith.
Qed.

(** C5.  For every request a browser can hand to the handler (its URL
    scheme is one of FETCH_EVENT_SCHEMES), the handler responds exactly
    when the method is GET and the scheme is http or https; every other
    request, with another method or with a scheme that is not a network
    scheme, such as an extension's, is passed through: no response is
    substituted and nothing changes. *)
Theorem C5_interception (request : Request) (w : World) :
  url_scheme (url request) ∈ FETCH_EVENT_SCHEMES →
  (method request = "GET" ∧ http_scheme (url request) = true ∧
   ∃ r w1, on_fetch env request w = (Fulfilled tt, w1) ∧
           responses (trace w1) = responses (trace w) ++ [r])
  ∨
  ((method request ≠ "GET" ∨ http_scheme (url request) = false) ∧
   on_fetch env request w = (Fulfilled tt, w)).
Proof.
  intros Hscheme. pose proof (known_scheme_guard _ Hscheme) as Hguard.
  destruct (on_fetch_guard request w) as [[(Hm & Hu & Hrun)|([Hm|Hu] & Hrun)] _].
  - left. split_and!; [done| |done]. by rewrite <- Hguard.
  - right. split; [by left|done].
  - right. split; [right; by rewrite <- Hguard|done].
Qed.

End Interception.

(** ** Concrete runs *)

Lemma C1_cached_entry_served_witness :
  ∃ w',
    on_fetch online (navigation "https://app.example/index.html") shell_cached
      = (Fulfilled tt, w') ∧
    trace w' = trace shell_cached ++ [ERespondWith (Fulfilled (Some (ok_response "shell")))] ∧
    detached w' = detached shell_cached
                  ++ [TaskFetchAndCache (navigation "https://app.example/index.html")] ∧
    (∀ env' w'',
       trace (snd (run_task env' (TaskFetchAndCache (navigation "https://app.example/index.html"))
                            w''))
       = trace w'' ++ [EFetch (url (navigation "https://app.example/index.html"))]) ∧
    ∀ env', responses (trace (quiesce env' w'))
            = responses (trace shell_cached) ++ [Fulfilled (Some (ok_response "shell"))].
Proof.
  apply (C1_cached_entry_served online (navigation "https://app.example/index.html")
           shell_cached (ok_response "shell")); reflexivity.
Defined.

Lemma C2_failure_fallback_witness :
  ∃ w',
    on_fetch offline (navigation "https://app.example/session") shell_cached
      = (Fulfilled tt, w') ∧
    trace w' = [EFetch "https://app.example/session";
                ERespondWith (Fulfilled (Some (ok_response "shell")))].
Proof.
  apply (C2_failure_fallback offline (navigation "https://app.example/session")
           shell_cached
           (snd (fetch_pipeline offline (navigation "https://app.example/session")
                                shell_cached))
           NetworkError); reflexivity.
Defined.

Lemma C4_activate_single_generation_witness :
  (∀ name, name ∈ storage_keys (storage (snd (on_activate online three_generations)))
           → name = CACHE_NAME) ∧
  (List.length (storage (snd (on_activate online three_generations))) ≤ 1)%nat ∧
  storage_find CACHE_NAME (storage (snd (on_activate online three_generations)))
    = storage_find CACHE_NAME (storage three_generations) ∧
  trace (snd (on_activate online three_generations))
    = trace three_generations
      ++ map ECacheDelete
           (List.filter (λ cacheName, negb (String.eqb cacheName CACHE_NAME))
                        (storage_keys (storage three_generations)))
      ++ [EClientsClaim; EWaitUntil (Fulfilled tt)].
Proof.
  apply (C4_activate_single_generation online three_generations).
  - vm_compute. repeat constructor; set_solver.
  - reflexivity.
Defined.

(** C3, at a failing input.  A GET for a URL on the host evil.example,
    which is neither the worker's origin nor one of the three named hosts,
    is answered with status 200 by the network; because the URL contains
    the text "fonts.googleapis.com" the guard lets it through and the
    response is written to the current generation. *)
Theorem C3_foreign_host_written :
  url_host foreign_url = "evil.example" ∧
  in_eligibility_set online foreign_url = false ∧
  cache_guard online foreign_url = true ∧
  cache_writes (trace (handle online (on_fetch online (get_request foreign_url)) fresh_world))
    = [(foreign_url, ok_response "live")] ∧
  generation_match foreign_url
    (storage (handle online (on_fetch online (get_request foreign_url)) fresh_world))
    = Some (ok_response "live").
Proof. vm_compute. done. Qed.

(** C6, at a failing input.  With the script CDN unreachable one seed
    resource fails to fetch; nothing is stored and [skipWaiting] is not
    called, but the promise given to [waitUntil] fulfils, so the platform
    is told the install succeeded, and an empty cache carrying the current
    generation's name is left behind. *)
Theorem C6_install_failure_swallowed :
  net cdn_down 5 "https://cdnjs.cloudflare.com/ajax/libs/jspdf/2.5.1/jspdf.umd.min.js" = None ∧
  trace (snd (on_install cdn_down fresh_world))
    = [EFetch "https://app.example/";
       EFetch "https://app.example/index.html";
       EFetch "https://app.example/manifest.json";
       EFetch "https://fonts.googleapis.com/css2?family=Inter:wght@400;500;600;700&display=swap";
       EFetch "https://cdnjs.cloudflare.com/ajax/libs/jspdf/2.5.1/jspdf.umd.min.js";
       EWaitUntil (Fulfilled tt)] ∧
  storage_keys (storage (snd (on_install cdn_down fresh_world))) = [CACHE_NAME] ∧
  generation_match "https://app.example/index.html"
    (storage (snd (on_install cdn_down fresh_world))) = None.
Proof. vm_compute. done. Qed.

(** The install handler never reports a failure: whatever happens to the
    seed resources, the platform sees the promise fulfilled. *)
Lemma on_install_always_fulfils env w :
  last (trace (snd (on_install env w))) = Some (EWaitUntil (Fulfilled tt)).
Proof.
  unfold on_install, waitUntil, install_work, catch_.
  destruct (then_ _ _ w) as [[[]|e] w1]; cbn; by rewrite last_snoc.
Qed.

(** C8, at a failing input.  The live fetch answers with status 200, but
    [caches.open] is refused; the refusal lands in the [catch] meant for
    network failures, no cached copy exists, [fetchAndCache] rejects, and
    the page receives the synthesized 408 response instead of the
    network's. *)
Theorem C8_open_failure_loses_response :
  net open_refused 1 "https://app.example/api/data" = Some (ok_response "live") ∧
  storage_fault open_refused 2 = true ∧
  trace (handle open_refused
           (on_fetch open_refused (get_request "https://app.example/api/data"))
           fresh_world)
    = [EFetch "https://app.example/api/data";
       ERespondWith (Fulfilled (Some {| body := ""; status := 408; statusText := "Offline" |}))].
Proof. vm_compute. done. Qed.

(** The part of C8 that holds: when the live fetch answers and
    [caches.open] goes through (or is not attempted), [fetchAndCache]
    returns the network's response; the write it queues is not awaited, so
    its failure cannot reach the caller. *)
Lemma fetchAndCache_returns_network_response env request w r :
  net env (clock w) (url request) = Some r →
  status r ≠ 200 ∨ storage_fault env (S (clock w)) = false →
  fst (fetchAndCache env request w) = Fulfilled r.
Proof.
  intros Hnet Hopen. unfold fetchAndCache. unfold_platform. unfold_promise. cbn.
  rewrite Hnet. cbn. destruct (Z.eqb_spec (status r) 200) as [Hs|Hs]; cbn; [|done].
  destruct Hopen as [Hne | ->]; [done|]. cbn.
  by destruct (cache_guard env (url request)).
Qed.

(** The part that does not: when [caches.open] is refused after a
    status-200 answer, the answer is dropped; the caller gets a cached copy
    if the lookup in the [catch] finds one, and the storage error if not. *)
Lemma fetchAndCache_open_refused env request w r :
  net env (clock w) (url request) = Some r →
  status r = 200 →
  storage_fault env (S (clock w)) = true →
  fst (fetchAndCache env request w)
  = if storage_fault env (S (S (clock w))) then Rejected StorageError
    else match storage_match (resolve_url env (url request)) (storage w) with
         | Some cachedResponse => Fulfilled cachedResponse
         | None => Rejected StorageError
         end.
Proof.
  intros Hnet Hs Hopen. unfold fetchAndCache. unfold_platform. unfold_promise. cbn.
  rewrite Hnet. cbn. rewrite Hs. cbn. rewrite Hopen. cbn.
  destruct (storage_fault env (S (S (clock w)))); cbn; [done|].
  by destruct (storage_match _ _).
Qed.

(** ** Control messages *)

Lemma storage_find_delete_eq name s : storage_find name (storage_delete name s) = None.
Proof.
  induction s as [|[n c] s IH]; simpl; [done|].
  destruct (String.eqb n name) eqn:Hn; simpl; [done|]. by rewrite Hn.
Qed.

(** C7 as stated fails: the message [{type: "clear-cache"}] deletes
    nothing; the shell stored in the current generation can still be read
    after the message was handled. *)
Lemma C7_counterexample_message_name :
  ¬ (∀ (env : Env) (w : World) (u : string),
       generation_match u
         (storage (handle env (on_message (VObj [("type", VStr "clear-cache")])) w))
       = None).
Proof.
  intros H.
  specialize (H online shell_cached "https://app.example/index.html").
  vm_compute in H. discriminate H.
Qed.

(** C7, as the code has it.  A message whose [type] is "CLEAR_CACHE"
    starts, without awaiting it, the deletion of the current cache
    generation; once that deletion has gone through, no cache of that name
    is left, and every read against the current generation finds nothing. *)
Theorem C7_clear_cache_message (env : Env) (w : World) (fields : list (string * value)) :
  assoc_lookup "type" fields = VStr "CLEAR_CACHE" →
  detached w = [] →
  storage_fault env (clock w) = false →
  detached (snd (on_message (VObj fields) w)) = [TaskCacheDelete CACHE_NAME] ∧
  trace (handle env (on_message (VObj fields)) w)
    = trace w ++ [ECacheDelete CACHE_NAME] ∧
  storage (handle env (on_message (VObj fields)) w)
    = storage_delete CACHE_NAME (storage w) ∧
  ∀ u, generation_match u (storage (handle env (on_message (VObj fields)) w)) = None.
Proof.
  intros Htype Hdet Hfault.
  assert (on_message (VObj fields) w
          = (Fulfilled tt, mkWorld (storage w) (clients w) (clock w) (trace w)
                                   [TaskCacheDelete CACHE_NAME])) as Hrun.
  { unfold on_message, data_type_is. cbn. rewrite Htype. cbn.
    unfold_promise. cbn. by rewrite Hdet. }
  unfold handle. rewrite Hrun. cbn.
  unfold quiesce. cbn. unfold_platform. unfold_promise. cbn. rewrite Hfault. cbn.
  split_and!; [done..|].
  intros u. unfold generation_match. by rewrite storage_find_delete_eq.
Qed.

Lemma C7_clear_cache_message_witness :
  detached (snd (on_message (VObj [("type", VStr "CLEAR_CACHE")]) shell_cached))
    = [TaskCacheDelete CACHE_NAME] ∧
  trace (handle online (on_message (VObj [("type", VStr "CLEAR_CACHE")])) shell_cached)
    = trace shell_cached ++ [ECacheDelete CACHE_NAME] ∧
  storage (handle online (on_message (VObj [("type", VStr "CLEAR_CACHE")])) shell_cached)
    = storage_delete CACHE_NAME (storage shell_cached) ∧
  ∀ u, generation_match u
         (storage (handle online (on_message (VObj [("type", VStr "CLEAR_CACHE")]))
                          shell_cached)) = None.
Proof.
  apply (C7_clear_cache_message online shell_cached [("type", VStr "CLEAR_CACHE")]);
    reflexivity.
Defined.

(** ** Push and notification click *)

(** C10.  When [event.data.json()] throws, the push handler throws the
    same error at once: the world is unchanged, so nothing was registered
    with [waitUntil] and no notification was shown.  A payload that parses
    to an object without the optional fields is shown with the defaults. *)
Theorem C10_malformed_push_throws (w : World) (d : PushMessageData) (e : error) :
  json d = Rejected e →
  on_push (Some d) w = (Rejected e, w) ∧
  on_push (Some (mkPushMessageData (Fulfilled (VObj [])))) w
    = (Fulfilled tt,
       mkWorld (storage w) (clients w) (clock w)
               ((trace w ++ [EShowNotification default_notification])
                ++ [EWaitUntil (Fulfilled tt)])
               (detached w)).
Proof.
  intros Hjson. split.
  - unfold on_push, of_settled, then_. by rewrite Hjson.
  - reflexivity.
Qed.

Lemma C10_malformed_push_throws_witness :
  on_push (Some (mkPushMessageData (Rejected SyntaxError))) fresh_world
    = (Rejected SyntaxError, fresh_world) ∧
  on_push (Some (mkPushMessageData (Fulfilled (VObj [])))) fresh_world
    = (Fulfilled tt,
       mkWorld [] [] 0
               (([] ++ [EShowNotification default_notification])
                ++ [EWaitUntil (Fulfilled tt)])
               []).
Proof.
  apply (C10_malformed_push_throws fresh_world
           (mkPushMessageData (Rejected SyntaxError)) SyntaxError).
  reflexivity.
Defined.





(** The runs of the click handler, evaluated: with a page of the app open
    the click focuses it; with none it opens the target, or "/" when the
    notification names no target; without data it opens nothing. *)
Example session_click_focuses_open_page :
  trace (snd (on_notificationclick online
                (mkNotificationEvent session_notification "open") one_page_open))
  = [ENotificationClose; EClientFocus (mkClient "https://app.example/" true);
     EWaitUntil (Fulfilled tt)].
Proof. reflexivity. Qed.

Example session_click_opens_session :
  trace (snd (on_notificationclick online
                (mkNotificationEvent session_notification "open") fresh_world))
  = [ENotificationClose; EOpenWindow (VStr "/session"); EWaitUntil (Fulfilled tt)].
Proof. reflexivity. Qed.

Example plain_click_opens_root :
  trace (snd (on_notificationclick online
                (mkNotificationEvent plain_notification "") fresh_world))
  = [ENotificationClose; EOpenWindow (VStr "/"); EWaitUntil (Fulfilled tt)].
Proof. reflexivity. Qed.

Example bare_click_opens_nothing :
  trace (snd (on_notificationclick online
                (mkNotificationEvent bare_notification "open") fresh_world))
  = [ENotificationClose; EWaitUntil (Rejected TypeError)].
Proof. reflexivity. Qed.

(** ** Further properties of the handlers *)

(** *** CacheStorage operations *)

Lemma storage_find_app name s1 s2 :
  storage_find name (s1 ++ s2)
  = match storage_find name s1 with
    | Some c => Some c
    | None => storage_find name s2
    end.
Proof.
  induction s1 as [|[n c] s1 IH]; simpl; [done|]. by destruct (String.eqb n name).
Qed.

Lemma storage_match_app u s1 s2 :
  storage_match u (s1 ++ s2)
  = match storage_match u s1 with
    | Some r => Some r
    | None => storage_match u s2
    end.
Proof.
  induction s1 as [|[n c] s1 IH]; cbn [app storage_match]; [done|].
  by destruct (c !! cache_key u).
Qed.

Lemma storage_find_open name s : is_Some (storage_find name (storage_open name s)).
Proof.
  unfold storage_open. destruct (storage_find name s) as [c|] eqn:Hfind.
  - rewrite Hfind. by eexists.
  - rewrite storage_find_app, Hfind. simpl. rewrite String.eqb_refl. by eexists.
Qed.

Lemma storage_find_open_ne name other s :
  other ≠ name → storage_find other (storage_open name s) = storage_find other s.
Proof.
  intros Hne. unfold storage_open. destruct (storage_find name s); [done|].
  rewrite storage_find_app. simpl.
  destruct (String.eqb_spec name other) as [->|_]; [done|].
  by destruct (storage_find other s).
Qed.

(** Opening a cache never changes what a lookup finds. *)
Lemma storage_match_open u name s :
  storage_match u (storage_open name s) = storage_match u s.
Proof.
  unfold storage_open. destruct (storage_find name s); [done|].
  rewrite storage_match_app. simpl. rewrite lookup_empty.
  by destruct (storage_match u s).
Qed.

Lemma storage_find_put name u r s :
  storage_find name (storage_put name u r s)
  = insert (cache_key u) r <$> storage_find name s.
Proof.
  induction s as [|[n c] s IH]; simpl; [done|].
  destruct (String.eqb n name) eqn:Hn; simpl; by rewrite Hn.
Qed.

Lemma storage_find_put_ne name other u r s :
  other ≠ name → storage_find other (storage_put name u r s) = storage_find other s.
Proof.
  intros Hne. induction s as [|[n c] s IH]; simpl; [done|].
  destruct (String.eqb_spec n name) as [->|Hn]; simpl.
  - by destruct (String.eqb_spec name other) as [->|_].
  - by rewrite IH.
Qed.

Lemma storage_match_put_other name u u' r s :
  cache_key u' ≠ cache_key u →
  storage_match u' (storage_put name u r s) = storage_match u' s.
Proof.
  intros Hne. induction s as [|[n c] s IH]; simpl; [done|].
  destruct (String.eqb n name); simpl.
  - by rewrite lookup_insert_ne.
  - by rewrite IH.
Qed.

(** A write under a URL that no cache holds makes the URL found. *)
Lemma storage_match_put_miss name u r s :
  storage_match u s = None →
  is_Some (storage_find name s) →
  storage_match u (storage_put name u r s) = Some r.
Proof.
  induction s as [|[n c] s IH]; simpl.
  - by intros _ [? ?].
  - destruct (c !! cache_key u) eqn:Hc; [done|]. intros Hs.
    destruct (String.eqb n name); simpl.
    + intros _. by rewrite lookup_insert_eq.
    + intros Hfind. rewrite Hc. by apply IH.
Qed.

Lemma generation_match_put u r s :
  is_Some (storage_find CACHE_NAME s) →
  generation_match u (storage_put CACHE_NAME u r s) = Some r.
Proof.
  intros [c Hc]. unfold generation_match. rewrite storage_find_put, Hc. simpl.
  by rewrite lookup_insert_eq.
Qed.

(** *** The fetch handler on a healthy storage *)

(** A cache hit, spelled out: the answer, the queued refresh, and nothing
    else. *)
Lemma on_fetch_hit env request w cached :
  method request = "GET" →
  startsWith (url request) "http" = true →
  storage_fault env (clock w) = false →
  storage_match (url request) (storage w) = Some cached →
  on_fetch env request w
  = (Fulfilled tt,
     mkWorld (storage w) (clients w) (S (clock w))
             (trace w ++ [ERespondWith (Fulfilled (Some cached))])
             (detached w ++ [TaskFetchAndCache request])).
Proof.
  intros Hm Hu Hf Hc. unfold on_fetch. rewrite Hm, Hu. simpl.
  unfold fetch_response, fetch_pipeline, caches_match.
  rewrite (resolve_url_absolute env _ Hu).
  unfold_platform. unfold_promise. cbn. rewrite Hf. cbn. rewrite Hc. cbn. done.
Qed.

Section FetchRoundTrip.

Variable env : Env.

(** A miss, answered by the network with status 200, for a URL that passes
    the guard: the page gets the network's response, the response is
    stored, and from then on the same request is answered from the cache
    whatever the network does. *)
Theorem fetch_miss_stored_then_served (request : Request) (w : World) (r : Response) :
  method request = "GET" →
  startsWith (url request) "http" = true →
  detached w = [] →
  (∀ t, storage_fault env t = false) →
  storage_match (url request) (storage w) = None →
  net env (S (clock w)) (url request) = Some r →
  status r = 200 →
  cache_guard env (url request) = true →
  responses (trace (handle env (on_fetch env request) w))
    = responses (trace w) ++ [Fulfilled (Some r)] ∧
  storage_match (url request) (storage (handle env (on_fetch env request) w)) = Some r ∧
  generation_match (url request) (storage (handle env (on_fetch env request) w)) = Some r ∧
  ∀ env2,
    storage_fault env2 (clock (handle env (on_fetch env request) w)) = false →
    responses (trace (snd (on_fetch env2 request (handle env (on_fetch env request) w))))
    = responses (trace w) ++ [Fulfilled (Some r); Fulfilled (Some r)].
Proof.
  intros Hm Hu Hdet Hsf Hmiss Hnet Hs Hg.
  assert (handle env (on_fetch env request) w
          = mkWorld (storage_put CACHE_NAME (url request) r
                       (storage_open CACHE_NAME (storage w)))
                    (clients w) (S (S (S (S (clock w)))))
                    (trace w ++ [EFetch (url request); ERespondWith (Fulfilled (Some r));
                                 ECachePut CACHE_NAME (url request) r])
                    []) as Hrun.
  { unfold handle, on_fetch. rewrite Hm, Hu. cbn [negb].
    unfold respondWith, fetch_response, fetch_pipeline, fetchAndCache, caches_match.
    rewrite (resolve_url_absolute env _ Hu).
    unfold_platform. unfold_promise. cbn. rewrite !Hsf. cbn. rewrite Hmiss. cbn.
    rewrite Hnet. cbn. rewrite Hs. cbn. rewrite !Hsf. cbn. rewrite Hg. cbn.
    rewrite Hdet. unfold quiesce. cbn. unfold_platform. unfold_promise. cbn.
    rewrite !Hsf. cbn. by rewrite <- !app_assoc. }
  rewrite Hrun. cbn.
  assert (storage_match (url request)
            (storage_put CACHE_NAME (url request) r (storage_open CACHE_NAME (storage w)))
          = Some r) as Hstored.
  { apply storage_match_put_miss; [by rewrite storage_match_open|].
    apply storage_find_open. }
  split_and!.
  - rewrite responses_app. done.
  - done.
  - apply generation_match_put, storage_find_open.
  - intros env2 Hf2. rewrite (on_fetch_hit env2 request _ r Hm Hu); [|done..]. cbn.
    rewrite !responses_app. cbn. by rewrite <- app_assoc.
Qed.

End FetchRoundTrip.

Ltac finish_run := rewrite <- ?app_assoc; repeat split; done.

Section FetchOutcomes.

Variable env : Env.

(** A miss answered by the network with a status other than 200: the page
    gets that response as it is, no cache is opened and nothing is stored. *)
Theorem fetch_non_200_passed_through (request : Request) (w : World) (r : Response) :
  method request = "GET" →
  startsWith (url request) "http" = true →
  detached w = [] →
  storage_fault env (clock w) = false →
  storage_match (url request) (storage w) = None →
  net env (S (clock w)) (url request) = Some r →
  status r ≠ 200 →
  handle env (on_fetch env request) w
  = mkWorld (storage w) (clients w) (S (S (clock w)))
            (trace w ++ [EFetch (url request); ERespondWith (Fulfilled (Some r))])
            [].
Proof.
  intros Hm Hu Hdet Hf Hmiss Hnet Hs.
  unfold handle, on_fetch. rewrite Hm, Hu. cbn [negb].
  unfold respondWith, fetch_response, fetch_pipeline, fetchAndCache, caches_match.
  rewrite (resolve_url_absolute env _ Hu).
  unfold_platform. unfold_promise. cbn. rewrite Hf. cbn. rewrite Hmiss. cbn.
  rewrite Hnet. cbn. destruct (Z.eqb_spec (status r) 200) as [|_]; [done|]. cbn.
  rewrite Hdet. unfold quiesce. cbn. by rewrite <- !app_assoc.
Qed.

(** A miss while the network is unreachable: the one fetch attempt fails,
    a second lookup finds nothing, and the page gets the shell lookup (for
    a navigation) or the 408 response (for anything else); the storage is
    left as it was. *)
Theorem fetch_offline_uncached (request : Request) (w : World) :
  method request = "GET" →
  startsWith (url request) "http" = true →
  detached w = [] →
  (∀ t, storage_fault env t = false) →
  storage_match (url request) (storage w) = None →
  net env (S (clock w)) (url request) = None →
  trace (handle env (on_fetch env request) w)
  = trace w ++
    [EFetch (url request);
     ERespondWith
       (Fulfilled
          (if String.eqb (mode request) "navigate"
           then storage_match (origin env ++ "/index.html")%string (storage w)
           else Some {| body := ""; status := 408; statusText := "Offline" |}))] ∧
  storage (handle env (on_fetch env request) w) = storage w.
Proof.
  intros Hm Hu Hdet Hsf Hmiss Hnet.
  unfold handle, on_fetch. rewrite Hm, Hu. cbn [negb].
  unfold respondWith, fetch_response, fetch_pipeline, fetchAndCache, fetch_fallback,
    caches_match.
  rewrite (resolve_url_absolute env _ Hu).
  unfold_platform. unfold_promise. cbn. rewrite !Hsf. cbn. rewrite Hmiss. cbn.
  rewrite Hnet. cbn. rewrite !Hsf. cbn. rewrite Hmiss. cbn.
  destruct (String.eqb (mode request) "navigate"); cbn.
  - rewrite !Hsf. cbn. rewrite Hdet. unfold quiesce. cbn. finish_run.
  - rewrite Hdet. unfold quiesce. cbn. finish_run.
Qed.

(** Stale-while-revalidate: on a hit the page gets the stored entry, and
    when the refresh is answered with status 200 for a URL that passes the
    guard, the current generation holds the fresh response afterwards. *)
Theorem fetch_hit_refreshes_entry (request : Request) (w : World) (cached r : Response) :
  method request = "GET" →
  startsWith (url request) "http" = true →
  detached w = [] →
  (∀ t, storage_fault env t = false) →
  storage_match (url request) (storage w) = Some cached →
  net env (S (clock w)) (url request) = Some r →
  status r = 200 →
  cache_guard env (url request) = true →
  trace (handle env (on_fetch env request) w)
  = trace w ++ [ERespondWith (Fulfilled (Some cached)); EFetch (url request);
                ECachePut CACHE_NAME (url request) r] ∧
  generation_match (url request) (storage (handle env (on_fetch env request) w)) = Some r.
Proof.
  intros Hm Hu Hdet Hsf Hhit Hnet Hs Hg.
  unfold handle. rewrite (on_fetch_hit env request w cached); [|done..].
  rewrite Hdet. unfold quiesce. cbn.
  unfold fetchAndCache. unfold_platform. unfold_promise. cbn.
  rewrite Hnet. cbn. rewrite Hs. cbn. rewrite !Hsf. cbn. rewrite Hg. cbn.
  unfold_platform. unfold_promise. cbn. rewrite !Hsf. cbn.
  split; [by rewrite <- !app_assoc|].
  apply generation_match_put, storage_find_open.
Qed.

(** A refresh that fails, or is answered with a status other than 200,
    leaves the storage exactly as it was; the page has its stored entry
    all the same. *)
Theorem fetch_hit_failed_refresh_keeps_storage
    (request : Request) (w : World) (cached : Response) :
  method request = "GET" →
  startsWith (url request) "http" = true →
  detached w = [] →
  storage_fault env (clock w) = false →
  storage_match (url request) (storage w) = Some cached →
  match net env (S (clock w)) (url request) with
  | Some r => status r ≠ 200
  | None => True
  end →
  storage (handle env (on_fetch env request) w) = storage w ∧
  trace (handle env (on_fetch env request) w)
  = trace w ++ [ERespondWith (Fulfilled (Some cached)); EFetch (url request)].
Proof.
  intros Hm Hu Hdet Hf Hhit Hnet.
  unfold handle. rewrite (on_fetch_hit env request w cached); [|done..].
  rewrite Hdet. unfold quiesce. cbn.
  unfold fetchAndCache. unfold_platform. unfold_promise. cbn.
  destruct (net env (S (clock w)) (url request)) as [r|]; cbn.
  - destruct (Z.eqb_spec (status r) 200) as [|_]; [done|]. cbn.
    finish_run.
  - destruct (storage_fault env (S (S (clock w)))); cbn.
    + finish_run.
    + destruct (storage_match (resolve_url env (url request)) (storage w)); cbn; finish_run.
Qed.

End FetchOutcomes.

(** *** What the fetch path can do to the storage *)

Lemma fetchAndCache_storage env request w :
  storage (snd (fetchAndCache env request w)) = storage w ∨
  storage (snd (fetchAndCache env request w)) = storage_open CACHE_NAME (storage w).
Proof.
  unfold fetchAndCache. unfold_platform. unfold_promise. cbn.
  destruct (net env (clock w) (url request)) as [r|]; cbn.
  - destruct (status r =? 200); cbn; [|by left].
    destruct (storage_fault env (S (clock w))); cbn.
    + destruct (storage_fault env (S (S (clock w)))); cbn; [by left|].
      destruct (storage_match (resolve_url env (url request)) (storage w)); by left.
    + destruct (cache_guard env (url request)); by right.
  - destruct (storage_fault env (S (clock w))); cbn; [by left|].
    destruct (storage_match (resolve_url env (url request)) (storage w)); by left.
Qed.

Lemma fetch_response_effect env request w :
  ∃ late,
    detached (snd (fetch_response env request w)) = detached w ++ late ∧
    (late = [] ∨ late = [TaskFetchAndCache request] ∨
     ∃ r, late = [TaskCachePut CACHE_NAME request r] ∧
          status r = 200 ∧ cache_guard env (url request) = true) ∧
    (storage (snd (fetch_response env request w)) = storage w ∨
     storage (snd (fetch_response env request w)) = storage_open CACHE_NAME (storage w)).
Proof.
  unfold fetch_response, fetch_pipeline, fetch_fallback.
  unfold caches_match, storage_call. unfold_promise. cbn.
  destruct (storage_fault env (clock w)) eqn:Hf; cbn.
  - destruct (mode request =? "navigate")%string; cbn.
    + destruct (storage_fault env (S (clock w))); cbn;
        exists []; rewrite app_nil_r; auto.
    + exists []; rewrite app_nil_r; auto.
  - destruct (storage_match (resolve_url env (url request)) (storage w)) as [cached|]; cbn.
    + exists [TaskFetchAndCache request]. auto.
    + match goal with |- context [fetchAndCache env request ?w1] =>
        destruct (fetchAndCache_frame env request w1) as (late & _ & Hd & Hlate);
        pose proof (fetchAndCache_storage env request w1) as Hst;
        destruct (fetchAndCache env request w1) as [[r|e] w2]
      end; cbn in *.
      * exists late. split_and!; [done| |done].
        destruct Hlate as [->|?]; auto.
      * assert (late = [] ∨ late = [TaskFetchAndCache request] ∨
                ∃ r, late = [TaskCachePut CACHE_NAME request r] ∧
                     status r = 200 ∧ cache_guard env (url request) = true) as Hl.
        { destruct Hlate as [->|?]; auto. }
        destruct (mode request =? "navigate")%string; cbn.
        -- destruct (storage_fault env (clock w2)); cbn; by exists late.
        -- by exists late.
Qed.

Section DrainInvariant.

Variable env : Env.
Variable Ptask : task → Prop.
Variable Inv : CacheStorage → Prop.

Hypothesis step : ∀ t w,
  Ptask t → Inv (storage w) →
  Inv (storage (snd (run_task env t w))) ∧
  ∀ late, detached (snd (run_task env t w)) = detached w ++ late → Forall Ptask late.

(** A property of the storage that every admissible task keeps is kept by
    the scheduler, however long it runs. *)
Lemma drain_invariant fuel w :
  Forall Ptask (detached w) → Inv (storage w) → Inv (storage (drain env fuel w)).
Proof.
  revert w. induction fuel as [|fuel IH]; intros w Hq Hinv; simpl; [done|].
  destruct (detached w) as [|t ts] eqn:Hdet; [done|].
  apply Forall_cons in Hq as [Ht Hts].
  destruct (step t (with_detached ts w) Ht Hinv) as [Hinv' Hlate].
  destruct (run_task_frame env t (with_detached ts w)) as (tr & late & _ & Hd & _).
  apply IH; [|done]. rewrite Hd. apply Forall_app. split; [done|].
  by apply Hlate.
Qed.

End DrainInvariant.

Lemma detached_late_unique (q late1 late2 : list task) :
  q ++ late1 = q ++ late2 → late1 = late2.
Proof. apply app_inv_head. Qed.

Lemma on_fetch_effect env request w :
  ∃ late,
    detached (snd (on_fetch env request w)) = detached w ++ late ∧
    (late = [] ∨ late = [TaskFetchAndCache request] ∨
     ∃ r, late = [TaskCachePut CACHE_NAME request r] ∧
          status r = 200 ∧ cache_guard env (url request) = true) ∧
    (storage (snd (on_fetch env request w)) = storage w ∨
     storage (snd (on_fetch env request w)) = storage_open CACHE_NAME (storage w)).
Proof.
  unfold on_fetch.
  destruct (negb (method request =? "GET")%string).
  { exists []. rewrite app_nil_r. cbn. auto. }
  destruct (negb (startsWith (url request) "http")).
  { exists []. rewrite app_nil_r. cbn. auto. }
  unfold respondWith.
  destruct (fetch_response_effect env request w) as (late & Hd & Hlate & Hst).
  destruct (fetch_response env request w) as [r w1]. cbn in *. by exists late.
Qed.

Section FetchAndOtherCaches.

Variable env : Env.

(** Handling a fetch event never modifies, creates or deletes a cache
    generation other than the current one, whatever the network and the
    storage do. *)
Theorem fetch_leaves_other_generations (request : Request) (w : World) (name : string) :
  Forall writes_current_only (detached w) →
  name ≠ CACHE_NAME →
  storage_find name (storage (handle env (on_fetch env request) w))
  = storage_find name (storage w).
Proof.
  intros Hq Hname. unfold handle, quiesce.
  destruct (on_fetch_effect env request w) as (late & Hd & Hlate & Hst).
  apply (drain_invariant env writes_current_only
           (λ s, storage_find name s = storage_find name (storage w))).
  - intros t w0 Ht Hinv. destruct t as [rq|cache rq r|cache]; [| |done].
    + split.
      * cbn. destruct (fetchAndCache_storage env rq w0) as [->| ->]; [done|].
        by rewrite storage_find_open_ne.
      * intros late' Hd'. cbn in Hd'.
        destruct (fetchAndCache_frame env rq w0) as (late0 & _ & Hd0 & Hl0).
        rewrite Hd0 in Hd'. apply detached_late_unique in Hd' as <-.
        destruct Hl0 as [->|(r & -> & _)]; [done|]. by repeat constructor.
    + cbn in Ht. subst cache. revert Hinv. cbn. unfold_platform. unfold_promise. cbn.
      destruct (storage_fault env (clock w0)); cbn; intros Hinv.
      * split; [done|]. intros late' Hd'.
        rewrite <- (app_nil_r (detached w0)) in Hd' at 1.
        by apply detached_late_unique in Hd' as <-.
      * split; [by rewrite storage_find_put_ne|]. intros late' Hd'.
        rewrite <- (app_nil_r (detached w0)) in Hd' at 1.
        by apply detached_late_unique in Hd' as <-.
  - rewrite Hd. apply Forall_app. split; [done|].
    destruct Hlate as [->|[->|(r & -> & _)]]; [done| |]; by repeat constructor.
  - destruct Hst as [->| ->]; [done|]. by rewrite storage_find_open_ne.
Qed.

(** A request whose URL does not pass the guard never changes what any
    cache lookup finds, whatever the network answers. *)
Theorem fetch_unguarded_never_stored (request : Request) (w : World) (u : string) :
  cache_guard env (url request) = false →
  Forall (unguarded_refresh env) (detached w) →
  storage_match u (storage (handle env (on_fetch env request) w))
  = storage_match u (storage w).
Proof.
  intros Hg Hq. unfold handle, quiesce.
  destruct (on_fetch_effect env request w) as (late & Hd & Hlate & Hst).
  apply (drain_invariant env (unguarded_refresh env)
           (λ s, storage_match u s = storage_match u (storage w))).
  - intros t w0 Ht Hinv. destruct t as [rq|cache rq r|cache]; [|done|done].
    cbn in Ht. split.
    + cbn. destruct (fetchAndCache_storage env rq w0) as [->| ->]; [done|].
      by rewrite storage_match_open.
    + intros late' Hd'. cbn in Hd'.
      destruct (fetchAndCache_frame env rq w0) as (late0 & _ & Hd0 & Hl0).
      rewrite Hd0 in Hd'. apply detached_late_unique in Hd' as <-.
      destruct Hl0 as [->|(r & _ & _ & Hg')]; [done|]. congruence.
  - rewrite Hd. apply Forall_app. split; [done|].
    destruct Hlate as [->|[->|(r & _ & _ & Hg')]]; [done| |congruence].
    by repeat constructor.
  - destruct Hst as [->| ->]; [done|]. by rewrite storage_match_open.
Qed.

End FetchAndOtherCaches.

(** *** Installation *)

Lemma fetch_all_spec env urls w :
  promise_all (map (fetch env) urls) w
  = (match fetched env (clock w) urls with
     | Some rs => Fulfilled rs
     | None => Rejected NetworkError
     end,
     mkWorld (storage w) (clients w) (clock w + List.length urls)%nat
             (trace w ++ map EFetch urls) (detached w)).
Proof.
  revert w. induction urls as [|u urls IH]; intros w.
  - cbn. unfold resolve. rewrite app_nil_r, Nat.add_0_r. by destruct w.
  - cbn [map promise_all fetched List.length].
    destruct (fetch env u w) as [r w1] eqn:Hfetch. rewrite IH.
    revert Hfetch. unfold fetch. unfold_promise. cbn.
    destruct (net env (clock w) u) as [r0|]; cbn; intros [= <- <-]; cbn;
      rewrite <- app_assoc, Nat.add_succ_r; cbn;
      destruct (fetched env (S (clock w)) urls); cbn; done.
Qed.

Lemma fetched_length env t urls rs :
  fetched env t urls = Some rs → List.length rs = List.length urls.
Proof.
  revert t rs. induction urls as [|u urls IH]; intros t rs; cbn.
  - by intros [= <-].
  - destruct (net env t u); [|done].
    destruct (fetched env (S t) urls) as [rs'|] eqn:Hrest; [|done].
    intros [= <-]. cbn. by rewrite (IH _ _ Hrest).
Qed.

Lemma last_char_app s t : t ≠ EmptyString → last_char (s ++ t)%string = last_char t.
Proof.
  intros Ht. induction s as [|c s IH]; [done|].
  change (String c s ++ t)%string with (String c (s ++ t)).
  destruct (s ++ t)%string as [|a rest] eqn:Happ.
  - destruct s; cbn in Happ; [done|discriminate].
  - rewrite <- IH. reflexivity.
Qed.

Lemma string_app_inv_head (s a b : string) : (s ++ a = s ++ b)%string → a = b.
Proof. induction s as [|c s IH]; cbn; [done|]. intros [= H]. by apply IH. Qed.

Lemma cache_key_app a b : cache_key a = a → cache_key (a ++ b)%string = (a ++ cache_key b)%string.
Proof.
  unfold cache_key. induction a as [|c a IH]; [done|].
  change (String c a ++ b)%string with (String c (a ++ b)). cbn [take_until].
  destruct (is_char "#" c); [done|]. intros [= Ha]. cbn. by rewrite IH.
Qed.

(** Whatever the origin, the five seed URLs are pairwise different. *)
Lemma seed_urls_NoDup env : NoDup (seed_urls env).
Proof.
  unfold seed_urls, ASSETS_TO_CACHE. cbn [map].
  change (resolve_url env "/") with (origin env ++ "/")%string.
  change (resolve_url env "/index.html") with (origin env ++ "/index.html")%string.
  change (resolve_url env "/manifest.json") with (origin env ++ "/manifest.json")%string.
  repeat (apply NoDup_cons; split); try apply NoDup_nil;
    rewrite ?not_elem_of_cons; repeat split; try apply not_elem_of_nil;
    try (intros H; apply string_app_inv_head in H; discriminate H);
    try (intros H; apply (f_equal last_char) in H;
         rewrite last_char_app in H by done; discriminate H);
    try discriminate.
Qed.

(** No seed URL has a fragment: each is its own cache key. *)
Lemma seed_urls_keys env : cache_key <$> seed_urls env = seed_urls env.
Proof.
  unfold seed_urls, ASSETS_TO_CACHE. cbn [map fmap list_fmap].
  change (resolve_url env "/") with (origin env ++ "/")%string.
  change (resolve_url env "/index.html") with (origin env ++ "/index.html")%string.
  change (resolve_url env "/manifest.json") with (origin env ++ "/manifest.json")%string.
  rewrite !cache_key_app by apply origin_no_fragment. reflexivity.
Qed.

Lemma storage_find_put_all name entries s :
  storage_find name (storage_put_all name entries s)
  = (λ c : gmap string Response, fold_left (λ acc e, <[cache_key e.1 := e.2]> acc) entries c)
      <$> storage_find name s.
Proof.
  unfold storage_put_all. revert s. induction entries as [|[u r] entries IH]; intros s; cbn.
  - by destruct (storage_find name s).
  - rewrite IH, storage_find_put. by destruct (storage_find name s).
Qed.

Lemma fold_insert_lookup_notin (entries : list (string * Response)) (c : gmap string Response) u :
  u ∉ cache_key <$> entries.*1 →
  fold_left (λ acc e, <[cache_key e.1 := e.2]> acc) entries c !! u = c !! u.
Proof.
  revert c. induction entries as [|[k v] entries IH]; intros c; cbn; [done|].
  intros [Hk Hrest]%not_elem_of_cons. rewrite IH by done.
  rewrite lookup_insert_ne; [done|]. by intros Heq.
Qed.

Lemma fold_insert_lookup (entries : list (string * Response)) (c : gmap string Response) u r :
  NoDup (cache_key <$> entries.*1) →
  (u, r) ∈ entries →
  fold_left (λ acc e, <[cache_key e.1 := e.2]> acc) entries c !! cache_key u = Some r.
Proof.
  revert c. induction entries as [|[k v] entries IH]; intros c; cbn.
  - by intros _ ?%elem_of_nil.
  - intros [Hk Hnd]%NoDup_cons [[= -> ->]|Hin]%elem_of_cons.
    + rewrite fold_insert_lookup_notin by done. by rewrite lookup_insert_eq.
    + by apply IH.
Qed.

Section Install.

Variable env : Env.

(** The world after an install in which the cache could be opened, every
    seed was fetched with an ok status, and the write went through. *)
Lemma on_install_success w rs :
  storage_fault env (clock w) = false →
  fetched env (S (clock w)) (seed_urls env) = Some rs →
  forallb response_ok rs = true →
  storage_fault env (clock w + 6) = false →
  on_install env w
  = (Fulfilled tt,
     mkWorld (storage_put_all CACHE_NAME (zip (seed_urls env) rs)
                (storage_open CACHE_NAME (storage w)))
             (clients w) (clock w + 7)%nat
             (trace w ++ map EFetch (seed_urls env)
              ++ [ECacheAddAll CACHE_NAME (seed_urls env); ESkipWaiting;
                  EWaitUntil (Fulfilled tt)])
             (detached w)).
Proof.
  intros Hopen Hnet Hok Hput.
  unfold on_install, waitUntil, install_work, cache_addAll, catch_, then_ at 1 2 3.
  unfold caches_open, storage_call. unfold_promise. cbn [fst snd]. rewrite Hopen.
  cbn [storage clients clock trace detached].
  rewrite <- (map_map (resolve_url env) (fetch env)). fold (seed_urls env).
  rewrite fetch_all_spec. cbn [storage clients clock trace detached].
  rewrite Hnet, Hok. cbn [storage clients clock trace detached].
  assert (List.length (seed_urls env) = 5%nat) as -> by reflexivity.
  replace (S (clock w) + 5)%nat with (clock w + 6)%nat by lia.
  rewrite Hput. unfold skipWaiting, emit. cbn [storage clients clock trace detached].
  f_equal. f_equal; [lia|]. by rewrite <- !app_assoc.
Qed.

End Install.

Lemma startsWith_app p t : startsWith (p ++ t)%string p = true.
Proof.
  induction p as [|c p IH]; [done|].
  change (String c p ++ t)%string with (String c (p ++ t)).
  cbn [startsWith]. by rewrite Ascii.eqb_refl.
Qed.

Lemma storage_put_all_single name entries (c : gmap string Response) :
  storage_put_all name entries [(name, c)]
  = [(name, fold_left (λ acc e, <[cache_key e.1 := e.2]> acc) entries c)].
Proof.
  unfold storage_put_all. revert c. induction entries as [|[u r] entries IH]; intros c; cbn.
  - done.
  - rewrite String.eqb_refl. by rewrite IH.
Qed.

Lemma seed_entries_keys env (rs : list Response) :
  List.length rs = List.length (seed_urls env) → (zip (seed_urls env) rs).*1 = seed_urls env.
Proof. intros Hlen. apply fst_zip. lia. Qed.

Section InstallProperties.

Variable env : Env.

(** A successful install: every seed of the manifest is then found in the
    current generation, with the response its fetch returned; the handler
    has called skipWaiting and the platform sees the install fulfilled. *)
Theorem install_stores_every_seed (w : World) (rs : list Response) :
  storage_fault env (clock w) = false →
  fetched env (S (clock w)) (seed_urls env) = Some rs →
  forallb response_ok rs = true →
  storage_fault env (clock w + 6) = false →
  trace (snd (on_install env w))
  = trace w ++ map EFetch (seed_urls env)
    ++ [ECacheAddAll CACHE_NAME (seed_urls env); ESkipWaiting; EWaitUntil (Fulfilled tt)] ∧
  ∀ i u r,
    ASSETS_TO_CACHE !! i = Some u → rs !! i = Some r →
    generation_match (resolve_url env u) (storage (snd (on_install env w))) = Some r.
Proof.
  intros Hopen Hnet Hok Hput.
  rewrite (on_install_success env w rs Hopen Hnet Hok Hput). cbn [snd trace storage].
  split; [done|]. intros i u r Hu Hr.
  unfold generation_match. rewrite storage_find_put_all.
  destruct (storage_find_open CACHE_NAME (storage w)) as [c ->]. cbn -[seed_urls].
  apply fold_insert_lookup.
  - rewrite seed_entries_keys by (by apply fetched_length in Hnet).
    rewrite seed_urls_keys. apply seed_urls_NoDup.
  - apply list_elem_of_lookup. exists i. apply lookup_zip_with_Some.
    exists (resolve_url env u), r. split_and!; [done| |done].
    unfold seed_urls. by rewrite list_lookup_fmap, Hu.
Qed.

(** A failed install: when a seed cannot be fetched, or comes back with a
    status that is not ok, no lookup finds anything it did not find
    before, skipWaiting is not called, and the platform still sees the
    install fulfilled. *)
Theorem install_failure_stores_nothing (w : World) :
  match fetched env (S (clock w)) (seed_urls env) with
  | Some rs => forallb response_ok rs = false
  | None => True
  end →
  (∀ u, storage_match u (storage (snd (on_install env w))) = storage_match u (storage w)) ∧
  trace (snd (on_install env w))
  = trace w
    ++ (if storage_fault env (clock w) then [] else map EFetch (seed_urls env))
    ++ [EWaitUntil (Fulfilled tt)].
Proof.
  intros Hfail.
  unfold on_install, waitUntil, install_work, cache_addAll, catch_, then_ at 1 2 3.
  unfold caches_open, storage_call. unfold_promise. cbn [fst snd].
  destruct (storage_fault env (clock w)); cbn [storage clients clock trace detached].
  { split; [done|]. by rewrite app_nil_l. }
  rewrite <- (map_map (resolve_url env) (fetch env)). fold (seed_urls env).
  rewrite fetch_all_spec. cbn [storage clients clock trace detached].
  destruct (fetched env (S (clock w)) (seed_urls env)) as [rs|].
  - rewrite Hfail. cbn [storage clients clock trace detached].
    split; [|by rewrite <- !app_assoc]. intros u. apply storage_match_open.
  - cbn [storage clients clock trace detached].
    split; [|by rewrite <- !app_assoc]. intros u. apply storage_match_open.
Qed.

(** Every seed of the manifest passes the guard of [fetchAndCache]: what
    the install stores is also kept fresh by later fetches. *)
Theorem seed_urls_pass_guard (u : string) :
  u ∈ seed_urls env → cache_guard env u = true.
Proof.
  unfold seed_urls, ASSETS_TO_CACHE. cbn [map].
  change (resolve_url env "/") with (origin env ++ "/")%string.
  change (resolve_url env "/index.html") with (origin env ++ "/index.html")%string.
  change (resolve_url env "/manifest.json") with (origin env ++ "/manifest.json")%string.
  rewrite !elem_of_cons, elem_of_nil.
  intros [->|[->|[->|[->|[->|[]]]]]]; unfold cache_guard.
  - by rewrite startsWith_app.
  - by rewrite startsWith_app.
  - by rewrite startsWith_app.
  - destruct (startsWith _ (origin env)); [done|]. reflexivity.
  - destruct (startsWith _ (origin env)); [done|]. reflexivity.
Qed.

(** After a first install, a navigation to a page that is not a seed (its
    URL, fragment aside, is none of the seed URLs), made while the network
    is unreachable, is answered with the app shell that the install
    fetched. *)
Theorem install_then_offline_navigation (w : World) (rs : list Response)
    (request : Request) (shell : Response) :
  storage w = [] →
  detached w = [] →
  (∀ t, storage_fault env t = false) →
  fetched env (S (clock w)) (seed_urls env) = Some rs →
  forallb response_ok rs = true →
  rs !! 1%nat = Some shell →
  method request = "GET" →
  startsWith (url request) "http" = true →
  mode request = "navigate" →
  cache_key (url request) ∉ seed_urls env →
  net env (clock w + 8) (url request) = None →
  responses (trace (handle env (on_fetch env request) (snd (on_install env w))))
  = responses (trace w) ++ [Fulfilled (Some shell)].
Proof.
  intros Hs Hdet Hsf Hnet Hok Hshell Hm Hu Hmode Hnew Hdown.
  rewrite (on_install_success env w rs (Hsf _) Hnet Hok (Hsf _)). cbn [snd].
  rewrite Hs, Hdet. change (storage_open CACHE_NAME []) with [(CACHE_NAME, ∅ : gmap string Response)].
  rewrite storage_put_all_single.
  pose proof (fetched_length _ _ _ _ Hnet) as Hlen.
  set (m := fold_left _ _ _).
  assert (m !! cache_key (url request) = None) as Hmiss.
  { unfold m. rewrite fold_insert_lookup_notin; [done|].
    by rewrite seed_entries_keys, seed_urls_keys. }
  assert (m !! cache_key (origin env ++ "/index.html")%string = Some shell) as Hhit.
  { unfold m. apply fold_insert_lookup.
    - rewrite seed_entries_keys by done. rewrite seed_urls_keys. apply seed_urls_NoDup.
    - apply list_elem_of_lookup. exists 1%nat. apply lookup_zip_with_Some.
      by exists (origin env ++ "/index.html")%string, shell. }
  clearbody m.
  unfold handle, on_fetch. rewrite Hm, Hu. cbn [negb].
  unfold respondWith, fetch_response, fetch_pipeline, fetchAndCache, fetch_fallback,
    caches_match.
  rewrite (resolve_url_absolute env _ Hu), Hmode.
  change (resolve_url env "/index.html") with (origin env ++ "/index.html")%string.
  unfold_platform. unfold_promise. cbn. rewrite !Hsf. cbn. rewrite Hmiss. cbn.
  replace (S (clock w + 7)) with (clock w + 8)%nat by lia.
  rewrite Hdown. cbn. rewrite !Hsf. cbn. rewrite Hmiss. cbn. rewrite !Hsf. cbn.
  rewrite Hhit. unfold quiesce. cbn.
  rewrite !responses_app. cbn.
  by rewrite !app_nil_r.
Qed.

End InstallProperties.

(** *** Activation *)

Lemma storage_delete_filter x s :
  storage_delete x s = List.filter (λ e, negb (String.eqb e.1 x)) s.
Proof.
  induction s as [|[n c] s IH]; cbn; [done|].
  destruct (String.eqb n x); cbn; by rewrite IH.
Qed.

Lemma storage_delete_all_filter names s :
  storage_delete_all names s
  = List.filter (λ e, negb (existsb (String.eqb e.1) names)) s.
Proof.
  unfold storage_delete_all. revert s.
  induction names as [|x names IH]; intros s; cbn.
  - induction s as [|e s IHs]; cbn; [done|]. by rewrite <- IHs.
  - rewrite IH, storage_delete_filter.
    induction s as [|[n c] s IHs]; cbn; [done|].
    destruct (String.eqb n x); cbn; [done|].
    destruct (existsb (String.eqb n) names); cbn; by rewrite IHs.
Qed.

(** Deleting the stale names leaves exactly the caches named CACHE_NAME. *)
Lemma storage_delete_stale s :
  storage_delete_all (stale_names s) s
  = List.filter (λ e, String.eqb e.1 CACHE_NAME) s.
Proof.
  rewrite storage_delete_all_filter. apply filter_ext_in.
  intros [n c] Hin. cbn. destruct (String.eqb_spec n CACHE_NAME) as [->|Hne].
  - apply negb_true_iff, not_true_is_false. intros (x & Hx & Heq)%existsb_exists.
    apply String.eqb_eq in Heq as <-. unfold stale_names in Hx.
    apply filter_In in Hx as [_ Hx]. by rewrite String.eqb_refl in Hx.
  - apply negb_false_iff, existsb_exists. exists n. split; [|apply String.eqb_refl].
    unfold stale_names. apply filter_In. split.
    + unfold storage_keys. apply in_map_iff. by exists (n, c).
    + by destruct (String.eqb_spec n CACHE_NAME).
Qed.

Lemma deleted_names_length env t names :
  (List.length (deleted_names env t names) ≤ List.length names)%nat.
Proof.
  revert t. induction names as [|n names IH]; intros t; cbn; [lia|].
  destruct (storage_fault env t); cbn; specialize (IH (S t)); lia.
Qed.

(** [Promise.all] over deletions, faults included: every deletion the
    storage does not refuse is carried out, whatever happens to the
    others; the result is fulfilled only when none was refused. *)
Lemma delete_all_spec env names w :
  ∃ res,
    promise_all (map (caches_delete env) names) w
    = (res,
       mkWorld (storage_delete_all (deleted_names env (clock w) names) (storage w))
               (clients w) (clock w + List.length names)%nat
               (trace w ++ map ECacheDelete (deleted_names env (clock w) names))
               (detached w)) ∧
    (deleted_names env (clock w) names = names → ∃ bs, res = Fulfilled bs) ∧
    (deleted_names env (clock w) names ≠ names → res = Rejected StorageError).
Proof.
  revert w. induction names as [|x names IH]; intros w.
  - cbn. exists (Fulfilled []). unfold resolve. rewrite app_nil_r, Nat.add_0_r.
    split_and!; [by destruct w|by eexists|done].
  - cbn [map promise_all deleted_names List.length].
    assert (caches_delete env x w
            = if storage_fault env (clock w)
              then (Rejected StorageError,
                    mkWorld (storage w) (clients w) (S (clock w)) (trace w) (detached w))
              else (Fulfilled (bool_decide (is_Some (storage_find x (storage w)))),
                    mkWorld (storage_delete x (storage w)) (clients w) (S (clock w))
                            (trace w ++ [ECacheDelete x]) (detached w))) as ->.
    { unfold caches_delete, storage_call. unfold_promise. cbn.
      by destruct (storage_fault env (clock w)). }
    destruct (storage_fault env (clock w)) eqn:Hf.
    + destruct (IH (mkWorld (storage w) (clients w) (S (clock w)) (trace w) (detached w)))
        as (res & -> & _ & _). cbn.
      eexists. split_and!.
      * rewrite Nat.add_succ_r. reflexivity.
      * intros Heq. exfalso.
        pose proof (deleted_names_length env (S (clock w)) names) as Hle.
        rewrite Heq in Hle. cbn in Hle. lia.
      * intros _. by destruct res.
    + destruct (IH (mkWorld (storage_delete x (storage w)) (clients w) (S (clock w))
                            (trace w ++ [ECacheDelete x]) (detached w)))
        as (res & -> & Hok & Hbad). cbn in *.
      eexists. split_and!.
      * rewrite Nat.add_succ_r, <- app_assoc. reflexivity.
      * intros [= Heq]. destruct (Hok Heq) as [bs ->]. by eexists.
      * intros Hne. rewrite Hbad; [done|]. intros Heq. apply Hne. by rewrite Heq.
Qed.

Lemma deleted_names_lookup env t names i name :
  names !! i = Some name →
  storage_fault env (t + i) = false →
  name ∈ deleted_names env t names.
Proof.
  revert t i. induction names as [|n names IH]; intros t i; [done|].
  destruct i as [|i]; cbn.
  - intros [= ->]. rewrite Nat.add_0_r. intros ->. apply elem_of_cons. by left.
  - intros Hlook Hf. rewrite Nat.add_succ_r in Hf.
    destruct (storage_fault env t); [|apply elem_of_cons; right];
      by apply (IH (S t) i).
Qed.

Lemma deleted_names_healthy env t names :
  (∀ t', storage_fault env t' = false) → deleted_names env t names = names.
Proof.
  intros Hsf. revert t. induction names as [|n names IH]; intros t; cbn; [done|].
  by rewrite Hsf, IH.
Qed.

Section ActivationProperties.

Variable env : Env.

(** With a storage that refuses nothing, activation always completes: it
    deletes every stale generation, keeps the caches named CACHE_NAME with
    their content, and then claims the clients. *)
Theorem activate_completes_on_healthy_storage (w : World) :
  (∀ t, storage_fault env t = false) →
  trace (snd (on_activate env w))
  = trace w ++ map ECacheDelete (stale_names (storage w))
    ++ [EClientsClaim; EWaitUntil (Fulfilled tt)] ∧
  storage (snd (on_activate env w))
  = List.filter (λ e, String.eqb e.1 CACHE_NAME) (storage w).
Proof.
  intros Hsf. unfold on_activate, waitUntil, activate_work.
  unfold caches_keys, storage_call, clients_claim. unfold_promise. cbn.
  rewrite Hsf. cbn.
  change (List.filter _ (map fst (storage w))) with (stale_names (storage w)).
  destruct (delete_all_spec env (stale_names (storage w))
              (mkWorld (storage w) (clients w) (S (clock w)) (trace w) (detached w)))
    as (res & -> & Hok & _). cbn in *.
  assert (deleted_names env (S (clock w)) (stale_names (storage w)) = stale_names (storage w))
    as Hall.
  { by apply deleted_names_healthy. }
  destruct (Hok Hall) as [bs ->]. cbn. rewrite Hall, storage_delete_stale.
  split; [|done]. by rewrite <- !app_assoc.
Qed.

(** When the storage refuses some of the deletions: every stale generation
    whose deletion is not refused is deleted all the same, clients.claim
    is called only if none was refused, and otherwise the platform sees
    the activation rejected. *)
Theorem activate_with_refused_deletions (w : World) :
  storage_fault env (clock w) = false →
  trace (snd (on_activate env w))
  = trace w
    ++ map ECacheDelete (deleted_names env (S (clock w)) (stale_names (storage w)))
    ++ (if bool_decide (deleted_names env (S (clock w)) (stale_names (storage w))
                        = stale_names (storage w))
        then [EClientsClaim; EWaitUntil (Fulfilled tt)]
        else [EWaitUntil (Rejected StorageError)]) ∧
  ∀ i name,
    stale_names (storage w) !! i = Some name →
    storage_fault env (S (clock w) + i) = false →
    name ∉ storage_keys (storage (snd (on_activate env w))).
Proof.
  intros Hkeys. unfold on_activate, waitUntil, activate_work.
  unfold caches_keys, storage_call, clients_claim. unfold_promise. cbn.
  rewrite Hkeys. cbn.
  change (List.filter _ (map fst (storage w))) with (stale_names (storage w)).
  destruct (delete_all_spec env (stale_names (storage w))
              (mkWorld (storage w) (clients w) (S (clock w)) (trace w) (detached w)))
    as (res & -> & Hok & Hbad). cbn in *.
  assert (∀ i name,
    stale_names (storage w) !! i = Some name →
    storage_fault env (S (clock w) + i) = false →
    name ∉ storage_keys
             (storage_delete_all
                (deleted_names env (S (clock w)) (stale_names (storage w))) (storage w)))
    as Hgone.
  { intros i name Hi Hf Hin.
    destruct (storage_delete_all_spec
                (deleted_names env (S (clock w)) (stale_names (storage w))) (storage w))
      as (Hk & _ & _).
    apply Hk in Hin as [_ Hout]. apply Hout.
    by apply (deleted_names_lookup env (S (clock w)) _ i). }
  case_bool_decide as Hall.
  - destruct (Hok Hall) as [bs ->]. cbn. split; [by rewrite <- !app_assoc|done].
  - rewrite (Hbad Hall). cbn. split; [by rewrite <- !app_assoc|done].
Qed.

End ActivationProperties.

(** *** Messages, pushes and clicks *)

(** The message handler returns normally for every message, whatever its
    data; unless the data is an object whose [type] is "SKIP_WAITING" or
    "CLEAR_CACHE", it changes nothing. *)
Theorem on_message_total_and_selective (data : value) (w : World) :
  fst (on_message data w) = Fulfilled tt ∧
  (on_message data w = (Fulfilled tt, w) ∨
   ∃ fields, data = VObj fields ∧
             (assoc_lookup "type" fields = VStr "SKIP_WAITING" ∨
              assoc_lookup "type" fields = VStr "CLEAR_CACHE")).
Proof.
  split.
  - unfold on_message, skipWaiting. unfold_promise.
    destruct (data_type_is data "SKIP_WAITING"), (data_type_is data "CLEAR_CACHE"); done.
  - destruct data as [| |b|n|s|items|fields];
      try (left; unfold on_message, data_type_is; cbn;
           try destruct b; try destruct (negb (n =? 0)); try destruct (negb (s =? "")%string);
           reflexivity).
    unfold on_message, data_type_is. cbn.
    destruct (assoc_lookup "type" fields) as [| |b|n|s|items|fs] eqn:Htype; cbn;
      try (left; reflexivity).
    destruct (String.eqb_spec s "SKIP_WAITING") as [->|Hskip].
    { right. exists fields. auto. }
    destruct (String.eqb_spec s "CLEAR_CACHE") as [->|Hclear].
    { right. exists fields. auto. }
    left. reflexivity.
Qed.

(** A push with a payload either throws before anything is registered or
    shown (the payload does not parse, or parses to [null]), or shows one
    notification whose title, body and target URL are all truthy and whose
    actions are "open" and "dismiss". *)
Theorem on_push_throws_or_shows_complete (d : PushMessageData) (w : World) :
  match json d with
  | Rejected e => on_push (Some d) w = (Rejected e, w)
  | Fulfilled VNull | Fulfilled VUndefined => on_push (Some d) w = (Rejected TypeError, w)
  | Fulfilled _ =>
      ∃ n,
        on_push (Some d) w
        = (Fulfilled tt,
           mkWorld (storage w) (clients w) (clock w)
                   (trace w ++ [EShowNotification n; EWaitUntil (Fulfilled tt)])
                   (detached w)) ∧
        truthy (n_title n) = true ∧
        truthy (n_body n) = true ∧
        truthy (n_data_url n) = true ∧
        n_actions n = [("open", "Open App"); ("dismiss", "Dismiss")]
  end.
Proof.
  assert (∀ a b, truthy b = true → truthy (js_or a b) = true) as Hor.
  { intros a b Hb. unfold js_or. by destruct (truthy a) eqn:Ha. }
  unfold on_push, of_settled, then_ at 1.
  destruct (json d) as [v|e]; [|done].
  destruct v as [| |b|n|s|items|fields]; try done;
    (eexists; split_and!;
     [ unfold_platform; unfold_promise; cbn; by rewrite <- app_assoc
     | first [reflexivity | by apply Hor] ..
     | reflexivity ]).
Qed.

Section ClickProperties.

Variable env : Env.

(** A click with any action other than "open" (for instance "dismiss")
    closes the notification and does nothing else: no work is registered,
    no page is focused or opened. *)
Theorem click_other_action_only_closes (event : NotificationEvent) (w : World) :
  action event ≠ "open" →
  action event ≠ "" →
  on_notificationclick env event w
  = (Fulfilled tt,
     mkWorld (storage w) (clients w) (clock w) (trace w ++ [ENotificationClose]) (detached w)).
Proof.
  intros Hopen Hbody. unfold on_notificationclick.
  destruct (String.eqb_spec (action event) "open") as [|_]; [done|].
  destruct (String.eqb_spec (action event) "") as [|_]; [done|].
  reflexivity.
Qed.

(** Every click closes the notification first and then performs at most
    one window operation: it never focuses two pages, and never opens a
    page when it has focused one. *)
Theorem click_closes_first_one_window_action (event : NotificationEvent) (w : World) :
  ∃ tr,
    trace (snd (on_notificationclick env event w)) = trace w ++ ENotificationClose :: tr ∧
    (List.length (window_actions tr) ≤ 1)%nat.
Proof.
  unfold on_notificationclick. unfold_platform. unfold_promise. cbn.
  destruct ((action event =? "open")%string || (action event =? "")%string); cbn.
  - destruct (List.find _ (clients w)) as [c|]; cbn.
    + exists [EClientFocus c; EWaitUntil (Fulfilled tt)].
      split; [by rewrite <- !app_assoc|]. cbn. lia.
    + destruct (has_openWindow env); cbn.
      * destruct (get_prop (n_data (notification event)) "url") as [target|]; cbn.
        -- eexists [EOpenWindow _; EWaitUntil (Fulfilled tt)].
           split; [by rewrite <- !app_assoc|]. cbn. lia.
        -- exists [EWaitUntil (Rejected TypeError)].
           split; [by rewrite <- !app_assoc|]. cbn. lia.
      * exists [EWaitUntil (Fulfilled tt)].
        split; [by rewrite <- !app_assoc|]. cbn. lia.
  - exists []. split; [done|]. cbn. lia.
Qed.

End ClickProperties.

(** *** The properties above, on concrete runs *)

Lemma fetch_miss_stored_then_served_witness :
  responses (trace (handle online (on_fetch online (get_request "https://app.example/api/data"))
                           fresh_world))
    = responses (trace fresh_world) ++ [Fulfilled (Some (ok_response "live"))] ∧
  storage_match (url (get_request "https://app.example/api/data"))
    (storage (handle online (on_fetch online (get_request "https://app.example/api/data"))
                     fresh_world))
    = Some (ok_response "live") ∧
  generation_match (url (get_request "https://app.example/api/data"))
    (storage (handle online (on_fetch online (get_request "https://app.example/api/data"))
                     fresh_world))
    = Some (ok_response "live") ∧
  ∀ env2,
    storage_fault env2
      (clock (handle online (on_fetch online (get_request "https://app.example/api/data"))
                     fresh_world)) = false →
    responses
      (trace (snd (on_fetch env2 (get_request "https://app.example/api/data")
                     (handle online
                        (on_fetch online (get_request "https://app.example/api/data"))
                        fresh_world))))
    = responses (trace fresh_world)
      ++ [Fulfilled (Some (ok_response "live")); Fulfilled (Some (ok_response "live"))].
Proof.
  apply (fetch_miss_stored_then_served online (get_request "https://app.example/api/data")
           fresh_world (ok_response "live")); reflexivity.
Defined.

Lemma fetch_non_200_passed_through_witness :
  handle not_found (on_fetch not_found (get_request "https://app.example/api/data")) fresh_world
  = mkWorld (storage fresh_world) (clients fresh_world) (S (S (clock fresh_world)))
            (trace fresh_world
             ++ [EFetch (url (get_request "https://app.example/api/data"));
                 ERespondWith (Fulfilled (Some (mkResponse "missing" 404 "Not Found")))])
            [].
Proof.
  apply (fetch_non_200_passed_through not_found (get_request "https://app.example/api/data")
           fresh_world (mkResponse "missing" 404 "Not Found")); first [reflexivity | discriminate].
Defined.

Lemma fetch_offline_uncached_witness :
  trace (handle offline (on_fetch offline (get_request "https://app.example/api/data"))
                shell_cached)
  = trace shell_cached ++
    [EFetch (url (get_request "https://app.example/api/data"));
     ERespondWith
       (Fulfilled
          (if String.eqb (mode (get_request "https://app.example/api/data")) "navigate"
           then storage_match (origin offline ++ "/index.html")%string (storage shell_cached)
           else Some {| body := ""; status := 408; statusText := "Offline" |}))] ∧
  storage (handle offline (on_fetch offline (get_request "https://app.example/api/data"))
                  shell_cached)
  = storage shell_cached.
Proof.
  apply (fetch_offline_uncached offline (get_request "https://app.example/api/data")
           shell_cached); reflexivity.
Defined.

Lemma fetch_hit_refreshes_entry_witness :
  trace (handle online (on_fetch online (navigation "https://app.example/index.html"))
                shell_cached)
  = trace shell_cached
    ++ [ERespondWith (Fulfilled (Some (ok_response "shell")));
        EFetch (url (navigation "https://app.example/index.html"));
        ECachePut CACHE_NAME (url (navigation "https://app.example/index.html"))
                  (ok_response "live")] ∧
  generation_match (url (navigation "https://app.example/index.html"))
    (storage (handle online (on_fetch online (navigation "https://app.example/index.html"))
                     shell_cached))
  = Some (ok_response "live").
Proof.
  apply (fetch_hit_refreshes_entry online (navigation "https://app.example/index.html")
           shell_cached (ok_response "shell") (ok_response "live")); reflexivity.
Defined.

Lemma fetch_hit_failed_refresh_keeps_storage_witness :
  storage (handle offline (on_fetch offline (navigation "https://app.example/index.html"))
                  shell_cached)
  = storage shell_cached ∧
  trace (handle offline (on_fetch offline (navigation "https://app.example/index.html"))
                shell_cached)
  = trace shell_cached
    ++ [ERespondWith (Fulfilled (Some (ok_response "shell")));
        EFetch (url (navigation "https://app.example/index.html"))].
Proof.
  apply (fetch_hit_failed_refresh_keeps_storage offline
           (navigation "https://app.example/index.html") shell_cached (ok_response "shell"));
    first [reflexivity | exact I].
Defined.

Lemma fetch_leaves_other_generations_witness :
  storage_find "solo-leveling-v0.9.0"
    (storage (handle online (on_fetch online (get_request "https://app.example/api/data"))
                     three_generations))
  = storage_find "solo-leveling-v0.9.0" (storage three_generations).
Proof.
  apply (fetch_leaves_other_generations online (get_request "https://app.example/api/data")
           three_generations "solo-leveling-v0.9.0").
  - constructor.
  - discriminate.
Defined.

Lemma fetch_unguarded_never_stored_witness :
  storage_match "https://api.example/data"
    (storage (handle online (on_fetch online (get_request "https://api.example/data"))
                     shell_cached))
  = storage_match "https://api.example/data" (storage shell_cached).
Proof.
  apply (fetch_unguarded_never_stored online (get_request "https://api.example/data")
           shell_cached "https://api.example/data").
  - reflexivity.
  - constructor.
Defined.

Lemma install_stores_every_seed_witness :
  trace (snd (on_install online fresh_world))
  = trace fresh_world ++ map EFetch (seed_urls online)
    ++ [ECacheAddAll CACHE_NAME (seed_urls online); ESkipWaiting; EWaitUntil (Fulfilled tt)] ∧
  ∀ i u r,
    ASSETS_TO_CACHE !! i = Some u → five_live !! i = Some r →
    generation_match (resolve_url online u) (storage (snd (on_install online fresh_world)))
    = Some r.
Proof.
  apply (install_stores_every_seed online fresh_world five_live); reflexivity.
Defined.

Lemma install_failure_stores_nothing_witness :
  (∀ u, storage_match u (storage (snd (on_install cdn_down fresh_world)))
        = storage_match u (storage fresh_world)) ∧
  trace (snd (on_install cdn_down fresh_world))
  = trace fresh_world
    ++ (if storage_fault cdn_down (clock fresh_world) then []
        else map EFetch (seed_urls cdn_down))
    ++ [EWaitUntil (Fulfilled tt)].
Proof.
  apply (install_failure_stores_nothing cdn_down fresh_world). exact I.
Defined.

Lemma seed_urls_pass_guard_witness :
  cache_guard online "https://app.example/manifest.json" = true.
Proof.
  apply (seed_urls_pass_guard online "https://app.example/manifest.json").
  apply elem_of_cons. right. apply elem_of_cons. right. apply elem_of_cons. left.
  reflexivity.
Defined.

Lemma install_then_offline_navigation_witness :
  responses
    (trace (handle online_then_offline
              (on_fetch online_then_offline (navigation "https://app.example/session"))
              (snd (on_install online_then_offline fresh_world))))
  = responses (trace fresh_world) ++ [Fulfilled (Some (ok_response "live"))].
Proof.
  apply (install_then_offline_navigation online_then_offline fresh_world five_live
           (navigation "https://app.example/session") (ok_response "live"));
    try reflexivity.
  intros H. vm_compute in H.
    repeat (apply elem_of_cons in H as [H|H]; [discriminate H|]).
    by apply elem_of_nil in H.
Defined.

Lemma activate_completes_on_healthy_storage_witness :
  trace (snd (on_activate online three_generations))
  = trace three_generations ++ map ECacheDelete (stale_names (storage three_generations))
    ++ [EClientsClaim; EWaitUntil (Fulfilled tt)] ∧
  storage (snd (on_activate online three_generations))
  = List.filter (λ e, String.eqb e.1 CACHE_NAME) (storage three_generations).
Proof.
  apply (activate_completes_on_healthy_storage online three_generations).
  reflexivity.
Defined.

Lemma activate_with_refused_deletions_witness :
  trace (snd (on_activate second_delete_refused three_generations))
  = trace three_generations
    ++ map ECacheDelete
         (deleted_names second_delete_refused (S (clock three_generations))
            (stale_names (storage three_generations)))
    ++ (if bool_decide
             (deleted_names second_delete_refused (S (clock three_generations))
                (stale_names (storage three_generations))
              = stale_names (storage three_generations))
        then [EClientsClaim; EWaitUntil (Fulfilled tt)]
        else [EWaitUntil (Rejected StorageError)]) ∧
  ∀ i name,
    stale_names (storage three_generations) !! i = Some name →
    storage_fault second_delete_refused (S (clock three_generations) + i) = false →
    name ∉ storage_keys (storage (snd (on_activate second_delete_refused three_generations))).
Proof.
  apply (activate_with_refused_deletions second_delete_refused three_generations).
  reflexivity.
Defined.

(** The run behind the last witness, evaluated: the first stale generation
    is deleted, the second survives the refusal, clients.claim is not
    called and the activation is reported as rejected. *)
Example refused_deletion_run :
  trace (snd (on_activate second_delete_refused three_generations))
  = [ECacheDelete "solo-leveling-v0.8.0"; EWaitUntil (Rejected StorageError)] ∧
  storage_keys (storage (snd (on_activate second_delete_refused three_generations)))
  = [CACHE_NAME; "solo-leveling-v0.9.0"].
Proof. split; reflexivity. Qed.

Lemma click_other_action_only_closes_witness :
  on_notificationclick online (mkNotificationEvent session_notification "dismiss")
                       one_page_open
  = (Fulfilled tt,
     mkWorld (storage one_page_open) (clients one_page_open) (clock one_page_open)
             (trace one_page_open ++ [ENotificationClose]) (detached one_page_open)).
Proof.
  apply (click_other_action_only_closes online
           (mkNotificationEvent session_notification "dismiss") one_page_open);
    discriminate.
Defined.

(** A request that is not a navigation always receives a response from the
    handler, whatever fails on the way: the network's, a stored one, or
    the synthesized 408; the promise given to [respondWith] never rejects
    and never resolves to nothing. *)
Theorem non_navigation_always_answered (env : Env) (request : Request) (w : World) :
  method request = "GET" →
  startsWith (url request) "http" = true →
  mode request ≠ "navigate" →
  ∃ r w1,
    on_fetch env request w = (Fulfilled tt, w1) ∧
    last (trace w1) = Some (ERespondWith (Fulfilled (Some r))).
Proof.
  intros Hm Hu Hmode. unfold on_fetch. rewrite Hm, Hu. cbn [negb String.eqb].
  unfold respondWith, fetch_response, fetch_fallback, catch_.
  destruct (String.eqb_spec (mode request) "navigate") as [|_]; [done|].
  unfold then_, resolve, emit. cbn -[fetch_pipeline].
  destruct (fetch_pipeline env request w) as [[r|e] w1] eqn:Hp; cbn.
  - exists r. eexists. split; [done|]. cbn. by rewrite last_snoc.
  - exists offline_response. eexists. split; [done|]. cbn. by rewrite last_snoc.
Qed.

Lemma non_navigation_always_answered_witness :
  ∃ r w1,
    on_fetch open_refused (get_request "https://app.example/api/data") fresh_world
    = (Fulfilled tt, w1) ∧
    last (trace w1) = Some (ERespondWith (Fulfilled (Some r))).
Proof.
  apply (non_navigation_always_answered open_refused
           (get_request "https://app.example/api/data") fresh_world);
    first [reflexivity | discriminate].
Defined.

(** *** The revised statements on concrete runs *)

(** C2 as stated fails: an offline navigation on an empty storage makes the
    promise chain reject, and the lookup of '/index.html' finds no
    document to return; the page gets no response. *)
Lemma C2_counterexample_no_shell_stored :
  ¬ (∀ (env : Env) (request : Request) (w w1 : World) (e : error),
       method request = "GET" →
       startsWith (url request) "http" = true →
       fetch_pipeline env request w = (Rejected e, w1) →
       mode request = "navigate" →
       ∃ shell,
         responses (trace (snd (on_fetch env request w)))
         = responses (trace w) ++ [Fulfilled (Some shell)]).
Proof.
  intros H.
  destruct (H offline (navigation "https://app.example/session") fresh_world
              (snd (fetch_pipeline offline (navigation "https://app.example/session")
                                   fresh_world))
              NetworkError) as [shell Hshell]; try reflexivity.
  vm_compute in Hshell. discriminate Hshell.
Qed.

Lemma C5_interception_witness :
  (method (get_request "chrome-extension://abcdef/content.js") = "GET" ∧
   http_scheme (url (get_request "chrome-extension://abcdef/content.js")) = true ∧
   ∃ r w1,
     on_fetch online (get_request "chrome-extension://abcdef/content.js") fresh_world
     = (Fulfilled tt, w1) ∧
     responses (trace w1) = responses (trace fresh_world) ++ [r])
  ∨
  ((method (get_request "chrome-extension://abcdef/content.js") ≠ "GET" ∨
    http_scheme (url (get_request "chrome-extension://abcdef/content.js")) = false) ∧
   on_fetch online (get_request "chrome-extension://abcdef/content.js") fresh_world
   = (Fulfilled tt, fresh_world)).
Proof.
  apply (C5_interception online (get_request "chrome-extension://abcdef/content.js")
           fresh_world).
  apply list_elem_of_In. vm_compute. auto 20.
Defined.

(** Lookups do not see fragments: with the shell stored, a request for
    the shell with a fragment is a hit, online or offline. *)
Example fragment_request_is_a_hit :
  responses (trace (snd (on_fetch offline (navigation "https://app.example/index.html#top")
                           shell_cached)))
  = [Fulfilled (Some (ok_response "shell"))].
Proof. reflexivity. Qed.

(** After an install, the hash route "/#/session" is the seed "/". *)
Example hash_route_is_the_root_seed :
  cache_key "https://app.example/#/session" = "https://app.example/" ∧
  responses
    (trace (snd (on_fetch online_then_offline (navigation "https://app.example/#/session")
                   (snd (on_install online_then_offline fresh_world)))))
  = [Fulfilled (Some (ok_response "live"))].
Proof. split; reflexivity. Qed.
